(** * Postcondition checkers of the deploy/retrieve commands

    A shallow embedding of the postcondition checkers of
    salesforcedx-vscode-core: the composite checker, the empty checker,
    the overwrite prompt for components that already exist locally, and the
    two conflict-detection checkers.

    Every [check] is an [async] method.  The extension host is
    single-threaded and each [await] is run to completion before the next
    statement, so a method is embedded as a function that threads the state
    of the outside world and either returns a value or throws. *)

From stdpp Require Import base decidable option list strings gmap pretty.

(** ** Asynchronous computations: state passing with exceptions *)

(** A thrown JavaScript value.  Any value can be thrown, and a promise can
    reject with any value.  The only thing the checkers do with a caught
    value is to log it and to call [error.toString()] on it, so the values
    are told apart by what that call does: [Error rendered] is a value
    whose [toString()] returns [rendered] (an [Error] object, a string, a
    number, ...); [Undefined] and [Null] have no properties at all;
    [Unprintable thrown] is an object whose [toString] itself throws
    [thrown]. *)
Inductive JsError : Type :=
  | Error (rendered : string)
  | Undefined
  | Null
  | Unprintable (thrown : JsError).

(** Reading a property of [undefined] or [null]. *)
Definition TypeError : JsError := Error "TypeError".

Inductive Outcome (A : Type) : Type :=
  | Returned (a : A)
  | Thrown (e : JsError).
Arguments Returned {A} a.
Arguments Thrown {A} e.

(** [error.toString()] *)
Definition toString (e : JsError) : Outcome string :=
  match e with
  | Error rendered => Returned rendered
  | Undefined | Null => Thrown TypeError
  | Unprintable thrown => Thrown thrown
  end.

(** [Async W A]: a promise of an [A] over a world of type [W]. *)
Definition Async (W A : Type) : Type := W -> Outcome A * W.

Definition ret {W A} (a : A) : Async W A := fun w => (Returned a, w).

Definition throw {W A} (e : JsError) : Async W A := fun w => (Thrown e, w).

(** An expression that returns or throws without touching the world. *)
Definition settle {W A} (o : Outcome A) : Async W A := fun w => (o, w).

Definition bind {W A B} (m : Async W A) (k : A -> Async W B) : Async W B :=
  fun w =>
    match m w with
    | (Returned a, w') => k a w'
    | (Thrown e, w') => (Thrown e, w')
    end.

(** [try { m } catch (error) { handler error }] *)
Definition try_catch {W A} (m : Async W A) (handler : JsError -> Async W A)
  : Async W A :=
  fun w =>
    match m w with
    | (Returned a, w') => (Returned a, w')
    | (Thrown e, w') => handler e w'
    end.

Notation "'let*' x ':=' m 'in' k" := (bind m (fun x => k))
  (at level 10, x pattern, m at level 100, k at level 200).
Notation "m ';;' k" := (bind m (fun _ => k))
  (at level 100, k at level 200, right associativity).

(** ** Responses and the checker interface *)

(** [ContinueResponse<T> | CancelResponse]: [{type: 'CONTINUE', data}] or
    [{type: 'CANCEL', msg?}]. *)
Inductive Response (T : Type) : Type :=
  | CONTINUE (data : T)
  | CANCEL (msg : option string).
Arguments CONTINUE {T} data.
Arguments CANCEL {T} msg.

(** [interface PostconditionChecker<T>] *)
Record PostconditionChecker (W T : Type) : Type := {
  check : Response T -> Async W (Response T)
}.
Arguments check {W T} _ _ _.

Section Composite.
Context {W T : Type}.

(** The [for (const postchecker of this.postcheckers)] loop of
    [CompositePostconditionChecker.check]. *)
Fixpoint composite_loop (postcheckers : list (PostconditionChecker W T))
    (inputs : Response T) : Async W (Response T) :=
  match postcheckers with
  | [] => ret inputs
  | postchecker :: rest =>
      let* inputs := check postchecker inputs in
      match inputs with
      | CONTINUE _ => composite_loop rest inputs
      | CANCEL _ => ret (CANCEL None)
      end
  end.

Definition composite_check (postcheckers : list (PostconditionChecker W T))
    (inputs : Response T) : Async W (Response T) :=
  match inputs with
  | CONTINUE _ => composite_loop postcheckers inputs
  | CANCEL _ => ret inputs
  end.

Definition CompositePostconditionChecker
    (postcheckers : list (PostconditionChecker W T))
  : PostconditionChecker W T :=
  {| check := composite_check postcheckers |}.

Definition EmptyPostChecker : PostconditionChecker W T :=
  {| check := fun inputs => ret inputs |}.

(** A call spy around a checker, as the unit tests wrap stubs: the world
    is extended with a call log, and every invocation of the [k]-th
    checker appends [k] to it before the checker runs.  The wrapped
    checker cannot touch the log. *)
Definition spy (k : nat) (c : PostconditionChecker W T)
  : PostconditionChecker (list nat * W) T :=
  {| check := fun inputs lw =>
       let '(r, w') := check c inputs (snd lw) in
       (r, (fst lw ++ [k], w')) |}.

(** The chain with the checker at position [k] spied under the name
    [from + k]. *)
Fixpoint spied_from (from : nat) (cs : list (PostconditionChecker W T))
  : list (PostconditionChecker (list nat * W) T) :=
  match cs with
  | [] => []
  | c :: cs' => spy from c :: spied_from (S from) cs'
  end.

Definition spied := spied_from 0.
End Composite.

(** ** Data model *)

(** [LocalComponent].  The objects are never mutated by the checkers, but
    [Set<LocalComponent>] compares them by reference, so every object
    carries its identity [oid]: two components with the same fields and
    different [oid]s are distinct members of a set. *)
Record LocalComponent : Type := {
  oid : nat;
  fileName : string;
  outputdir : string;
  type : string;
  suffix : option string
}.

#[global] Instance LocalComponent_eq_dec : EqDecision LocalComponent.
Proof. solve_decision. Defined.

#[global] Instance LocalComponent_countable : Countable LocalComponent.
Proof.
  refine (inj_countable'
            (fun c => (oid c, fileName c, outputdir c, type c, suffix c))
            (fun t => let '(i, f, o, ty, s) := t in
                      {| oid := i; fileName := f; outputdir := o;
                         type := ty; suffix := s |}) _).
  by intros [].
Defined.

(** [type OneOrMany = LocalComponent | LocalComponent[]] *)
Inductive OneOrMany : Type :=
  | One (component : LocalComponent)
  | Many (components : list LocalComponent).

(** An entry of [DirectoryDiffResults.different]; the checkers read only
    [localRelPath]. *)
Record DiffFile : Type := {
  localRelPath : string
}.

(** [DirectoryDiffResults]; [different] is a [Set] of distinct objects,
    kept as the list of its members in iteration order, so that
    [different.size] is its length. *)
Record DirectoryDiffResults : Type := {
  different : list DiffFile;
  scannedRemote : Z;
  scannedLocal : Z
}.

Record ConflictDetectionConfig : Type := {
  username : string;
  manifest : string
}.

(** What [MetadataCacheService.loadCache] resolves to; the checker only
    hands it to [TimestampConflictDetector.createDiffs]. *)
Inductive MetadataCacheResult : Type :=
  | CacheResult (token : nat).

Record ConflictDetectionMessages : Type := {
  warningMessageKey : string;
  commandHint : string -> string
}.

(** The extra arguments of [nls.localize(key, ...args)]. *)
Inductive LocalizeArg : Type :=
  | LStr (s : string)
  | LNum (n : Z).

(** [getPathToSource(dirPath, fileName, fileExt)] of a path strategy. *)
Definition PathStrategy : Type := string -> string -> string -> string.

(** What [MetadataDictionary.getInfo] returns for a registered type. *)
Record MetadataInfo : Type := {
  info_suffix : option string;
  info_extensions : option (list string);
  pathStrategy : PathStrategy
}.

(** ** The outside world *)

(** The calls the checkers make on their collaborators, in the order they
    are made. *)
Inductive Event : Type :=
  | ShowWarningModal (message : string) (options : list string)
  | ShowErrorMessage (message : string)
  | SendException (name message : string)
  | AppendLine (text : string)
  | ShowChannelOutput
  | ShowCommandWithTimestamp (text : string)
  | ConsoleError (error : JsError)
  | CheckForConflicts (config : ConflictDetectionConfig)
  | LoadCache (username componentPath projectPath : string) (isManifest : bool)
  | CreateDiffs (result : MetadataCacheResult)
  | VisualizeDifferences (title usernameOrAlias : string) (reveal : bool)
      (results : option DirectoryDiffResults)
  | Unlock.

#[global] Instance Event_is_Unlock_dec (e : Event) : Decision (e = Unlock).
Proof. destruct e; (by left) || (by right). Defined.

Definition World : Type := list Event.

(** The collaborators of the module, none of which is defined in it.
    What a collaborator answers may depend on everything that happened
    before the call: answers are functions of the history.  The string
    helpers are pure. *)
Record Collaborators : Type := {
  (** [nls.localize] *)
  localize : string -> list LocalizeArg -> string;
  (** [sfdxCoreSettings.getConflictDetectionEnabled()] *)
  conflictDetectionEnabled : World -> bool;
  (** [workspaceContext.username] *)
  workspaceUsername : World -> option string;
  (** the label picked in a warning modal, [None] when it is dismissed *)
  modalChoice : World -> string -> list string -> option string;
  (** [conflictDetector.checkForConflicts] *)
  conflictsFound : World -> ConflictDetectionConfig -> Outcome DirectoryDiffResults;
  (** [new MetadataCacheService(username).loadCache(path, root, isManifest)] *)
  cacheLoaded : World -> string -> string -> string -> bool -> Outcome MetadataCacheResult;
  (** [new TimestampConflictDetector().createDiffs(result)] *)
  diffsCreated : MetadataCacheResult -> Outcome DirectoryDiffResults;
  (** [MetadataDictionary.getInfo] *)
  getInfo : string -> option MetadataInfo;
  (** [PathStrategyFactory.createDefaultStrategy()] *)
  createDefaultStrategy : PathStrategy;
  (** [fs.existsSync] *)
  fileExists : World -> string -> bool;
  getRootWorkspacePath : string;
  join : string -> string -> string;
  basename : string -> string;
  normalize : string -> string
}.

(** The line feed of the template literals. *)
Definition LF : string := String (Ascii.ascii_of_nat 10) "".

(** A string offered to [if (s)]: [undefined] and the empty string are
    falsy. *)
Definition truthy (s : option string) : bool :=
  match s with
  | Some s => negb (String.eqb s "")
  | None => false
  end.

(** What [if (!s) { ... }] lets through: the string itself, unless it is
    [undefined] or empty. *)
Definition nonempty (s : option string) : option string :=
  match s with
  | Some s => if String.eqb s "" then None else Some s
  | None => None
  end.

(** [`${s}`] of a string that may be [undefined]. *)
Definition interpolate (s : option string) : string :=
  default "undefined" s.

Section Checkers.
Context (env : Collaborators).

Definition emit (e : Event) : Async World unit :=
  fun w => (Returned tt, w ++ [e]).

Definition read {A} (f : World -> A) : Async World A :=
  fun w => (Returned (f w), w).

(** A call that is recorded and whose outcome the collaborator decides. *)
Definition call {A} (e : Event) (f : World -> Outcome A) : Async World A :=
  fun w => (f w, w ++ [e]).

Definition showWarningModal (message : string) (options : list string)
  : Async World (option string) :=
  call (ShowWarningModal message options)
       (fun w => Returned (modalChoice env w message options)).

Definition checkForConflicts (config : ConflictDetectionConfig)
  : Async World DirectoryDiffResults :=
  call (CheckForConflicts config) (fun w => conflictsFound env w config).

Definition loadCache (username componentPath projectPath : string)
    (isManifest : bool) : Async World MetadataCacheResult :=
  call (LoadCache username componentPath projectPath isManifest)
       (fun w => cacheLoaded env w username componentPath projectPath isManifest).

Definition createDiffs (result : MetadataCacheResult)
  : Async World DirectoryDiffResults :=
  call (CreateDiffs result) (fun _ => diffsCreated env result).

(** [`${label} (${othersCount})`] *)
Definition counted (label : string) (othersCount : Z) : string :=
  label +:+ " (" +:+ pretty othersCount +:+ ")".

(** *** OverwriteComponentPrompt *)

Definition getFileExtensions (component : LocalComponent)
  : Async World (list string) :=
  let info := getInfo env (type component) in
  let* metadataSuffix :=
    if truthy (suffix component) then ret (suffix component)
    else if truthy (info ≫= info_suffix) then ret (info ≫= info_suffix)
    else
      emit (ShowErrorMessage (localize env "error_overwrite_prompt" [])) ;;
      emit (SendException "OverwriteComponentPromptException"
              ("Missing suffix for " +:+ type component)) ;;
      ret None
  in
  let extensions := ["." +:+ interpolate metadataSuffix +:+ "-meta.xml"] in
  ret (extensions ++ default [] (info ≫= info_extensions)).

Definition componentExists (component : LocalComponent) : Async World bool :=
  let info := getInfo env (type component) in
  let pathStrategy :=
    match info with
    | Some info => pathStrategy info
    | None => createDefaultStrategy env
    end in
  let* extensions := getFileExtensions component in
  read (fun w =>
    existsb (fun extension =>
               let path := join env (getRootWorkspacePath env)
                             (pathStrategy (outputdir component)
                                           (fileName component) extension) in
               fileExists env w path)
            extensions).

(** [array.filter(predicate)] with a predicate that has effects. *)
Fixpoint filterA {A} (predicate : A -> Async World bool) (array : list A)
  : Async World (list A) :=
  match array with
  | [] => ret []
  | x :: rest =>
      let* keep := predicate x in
      let* kept := filterA predicate rest in
      ret (if keep then x :: kept else kept)
  end.

Definition buildDialogOptions (foundComponents : list LocalComponent)
    (skipped : gset LocalComponent) (currentIndex : nat) : list string :=
  let choices := [localize env "warning_prompt_overwrite" []] in
  let numOfExistingFiles := Z.of_nat (length foundComponents) in
  let choices :=
    if bool_decide (0 < Z.of_nat (size skipped))%Z
       || negb (bool_decide (Z.of_nat (size skipped) = numOfExistingFiles - 1)%Z)
    then choices ++ [localize env "warning_prompt_skip" []]
    else choices in
  if bool_decide (Z.of_nat currentIndex < numOfExistingFiles - 1)%Z then
    let othersCount := (numOfExistingFiles - Z.of_nat currentIndex)%Z in
    choices ++
      [counted (localize env "warning_prompt_overwrite_all" []) othersCount;
       counted (localize env "warning_prompt_skip_all" []) othersCount]
  else choices.

(** The loop of [buildDialogMessage] from index [j], with [body] built so
    far; [rest] is [foundComponents.slice(j)], empty exactly when
    [j < existingLength] fails. *)
Fixpoint dialogBody_loop (existingLength currentIndex j : nat)
    (rest : list LocalComponent) (body : string) : string :=
  match rest with
  | [] => body
  | component :: rest' =>
      if bool_decide (j = currentIndex + 11) then
        let otherCount :=
          (Z.of_nat existingLength - Z.of_nat currentIndex - 11)%Z in
        body +:+ localize env "warning_prompt_other_not_shown" [LNum otherCount]
      else
        dialogBody_loop existingLength currentIndex (S j) rest'
          (body +:+ type component +:+ ":" +:+ fileName component +:+ LF)
  end.

Definition dialogBody (foundComponents : list LocalComponent)
    (currentIndex : nat) : string :=
  dialogBody_loop (length foundComponents) currentIndex (currentIndex + 1)
    (drop (currentIndex + 1) foundComponents) "".

(** [current.type] throws when [currentIndex] is out of range. *)
Definition buildDialogMessage (foundComponents : list LocalComponent)
    (currentIndex : nat) : Async World string :=
  let existingLength := length foundComponents in
  let body := dialogBody foundComponents currentIndex in
  let otherFilesCount :=
    (Z.of_nat existingLength - Z.of_nat currentIndex - 1)%Z in
  match foundComponents !! currentIndex with
  | Some current =>
      ret (localize env "warning_prompt_overwrite_message"
             [LStr (type current);
              LStr (fileName current);
              LStr (if bool_decide (0 < otherFilesCount)%Z
                    then localize env "warning_prompt_other_existing"
                           [LNum otherFilesCount]
                    else "");
              LStr body])
  | None => throw TypeError
  end.

(** The loop of [promptOverwrite] from index [i]; [rest] is
    [foundComponents.slice(i)], whose head is [foundComponents[i]] and
    which is empty exactly when [i < foundComponents.length] fails. *)
Fixpoint promptOverwrite_loop (foundComponents : list LocalComponent)
    (skipped : gset LocalComponent) (i : nat) (rest : list LocalComponent)
  : Async World (option (gset LocalComponent)) :=
  match rest with
  | [] => ret (Some skipped)
  | current :: rest' =>
      let options := buildDialogOptions foundComponents skipped i in
      let* message := buildDialogMessage foundComponents i in
      let* choice := showWarningModal message options in
      let othersCount := (Z.of_nat (length foundComponents) - Z.of_nat i)%Z in
      if bool_decide (choice = Some (localize env "warning_prompt_overwrite" [])) then
        promptOverwrite_loop foundComponents skipped (S i) rest'
      else if bool_decide (choice = Some (localize env "warning_prompt_skip" [])) then
        promptOverwrite_loop foundComponents ({[current]} ∪ skipped) (S i) rest'
      else if bool_decide
                (choice = Some (counted (localize env "warning_prompt_overwrite_all" [])
                                        othersCount)) then
        ret (Some skipped)
      else if bool_decide
                (choice = Some (counted (localize env "warning_prompt_skip_all" [])
                                        othersCount)) then
        ret (Some (list_to_set rest))
      else
        ret None (* Cancel *)
  end.

Definition promptOverwrite (foundComponents : list LocalComponent)
  : Async World (option (gset LocalComponent)) :=
  promptOverwrite_loop foundComponents ∅ 0 foundComponents.

(** [check] assigns the narrowed list to [inputs.data] and returns
    [inputs]; the response it returns is given here by its value. *)
Definition overwrite_check (inputs : Response OneOrMany)
  : Async World (Response OneOrMany) :=
  match inputs with
  | CONTINUE data =>
      let componentsToCheck :=
        match data with Many components => components | One c => [c] end in
      let* foundComponents := filterA componentExists componentsToCheck in
      if bool_decide (0 < length foundComponents) then
        let* toSkip := promptOverwrite foundComponents in
        match toSkip with
        | None => ret (CANCEL None)
        | Some toSkip =>
            if bool_decide (size toSkip = length componentsToCheck) then
              ret (CANCEL None)
            else
              match data with
              | Many _ =>
                  ret (CONTINUE
                         (Many (filter (fun selection => selection ∉ toSkip)
                                       componentsToCheck)))
              | One _ => ret inputs
              end
        end
      else ret inputs
  | CANCEL _ => ret (CANCEL None)
  end.

Definition OverwriteComponentPrompt : PostconditionChecker World OneOrMany :=
  {| check := overwrite_check |}.

(** *** ConflictDetectionChecker *)

(** [set.forEach(callback)] *)
Fixpoint forEachA {A} (callback : A -> Async World unit) (members : list A)
  : Async World unit :=
  match members with
  | [] => ret tt
  | x :: rest => callback x ;; forEachA callback rest
  end.

Definition conflict_handleConflicts (messages : ConflictDetectionMessages)
    (manifest usernameOrAlias : string) (results : DirectoryDiffResults)
  : Async World (Response string) :=
  let size := Z.of_nat (length (different results)) in
  let conflictTitle :=
    localize env "conflict_detect_view_root" [LStr usernameOrAlias; LNum size] in
  if bool_decide (size = 0%Z) then
    emit (VisualizeDifferences conflictTitle usernameOrAlias false None) ;;
    ret (CONTINUE manifest)
  else
    emit (AppendLine
            (localize env "conflict_detect_conflict_header"
               [LNum size; LNum (scannedRemote results);
                LNum (scannedLocal results)])) ;;
    forEachA (fun file =>
                emit (AppendLine (normalize env (basename env (localRelPath file)))))
             (different results) ;;
    emit ShowChannelOutput ;;
    let* choice :=
      showWarningModal (localize env (warningMessageKey messages) [])
        [localize env "conflict_detect_override" [];
         localize env "conflict_detect_show_conflicts" []] in
    if bool_decide (choice = Some (localize env "conflict_detect_override" [])) then
      emit (VisualizeDifferences conflictTitle usernameOrAlias false None) ;;
      ret (CONTINUE manifest)
    else
      emit (AppendLine
              (localize env "conflict_detect_command_hint"
                 [LStr (commandHint messages manifest)])) ;;
      emit ShowChannelOutput ;;
      let doReveal :=
        bool_decide
          (choice = Some (localize env "conflict_detect_show_conflicts" [])) in
      emit (VisualizeDifferences conflictTitle usernameOrAlias doReveal
              (Some results)) ;;
      ret (CANCEL None).

Definition conflict_check (messages : ConflictDetectionMessages)
    (inputs : Response string) : Async World (Response string) :=
  let* enabled := read (conflictDetectionEnabled env) in
  if negb enabled then ret inputs
  else
    match inputs with
    | CONTINUE data =>
        let* username := read (workspaceUsername env) in
        match nonempty username with
        | None =>
            ret (CANCEL (Some (localize env "conflict_detect_no_default_username" [])))
        | Some username =>
            let manifest := data in
            let config := {| username := username; manifest := manifest |} in
            let* results := checkForConflicts config in
            conflict_handleConflicts messages manifest username results
        end
    | CANCEL _ => ret (CANCEL None)
    end.

Definition ConflictDetectionChecker (messages : ConflictDetectionMessages)
  : PostconditionChecker World string :=
  {| check := conflict_check messages |}.

(** *** TimestampConflictChecker *)

Definition timestamp_handleConflicts (messages : ConflictDetectionMessages)
    (componentPath usernameOrAlias : string) (results : DirectoryDiffResults)
  : Async World (Response string) :=
  let size := Z.of_nat (length (different results)) in
  let conflictTitle :=
    localize env "conflict_detect_view_root" [LStr usernameOrAlias; LNum size] in
  if bool_decide (size = 0%Z) then
    emit (VisualizeDifferences conflictTitle usernameOrAlias false None) ;;
    ret (CONTINUE componentPath)
  else
    emit (AppendLine
            (localize env "conflict_detect_conflict_header_timestamp"
               [LNum size])) ;;
    forEachA (fun file =>
                emit (AppendLine (normalize env (basename env (localRelPath file)))))
             (different results) ;;
    let* choice :=
      showWarningModal (localize env (warningMessageKey messages) [])
        [localize env "conflict_detect_show_conflicts" [];
         localize env "conflict_detect_override" []] in
    if bool_decide (choice = Some (localize env "conflict_detect_override" [])) then
      emit (VisualizeDifferences conflictTitle usernameOrAlias false None) ;;
      ret (CONTINUE componentPath)
    else
      emit (AppendLine
              (localize env "conflict_detect_command_hint"
                 [LStr (commandHint messages componentPath)])) ;;
      let doReveal :=
        bool_decide
          (choice = Some (localize env "conflict_detect_show_conflicts" [])) in
      emit (VisualizeDifferences conflictTitle usernameOrAlias doReveal
              (Some results)) ;;
      emit Unlock ;;
      ret (CANCEL None).

(** The [catch (error)] block of [check], followed by the final
    [return {type: 'CANCEL'}].  [error.toString()] is evaluated as an
    argument of [nls.localize], after [console.error] and before anything
    is written or unlocked. *)
Definition timestamp_catch (error : JsError) : Async World (Response string) :=
  emit (ConsoleError error) ;;
  let* rendered := settle (toString error) in
  let errorMsg := localize env "conflict_detect_error" [LStr rendered] in
  emit (AppendLine errorMsg) ;;
  emit (SendException "ConflictDetectionException" errorMsg) ;;
  emit Unlock ;;
  ret (CANCEL None).

Definition timestamp_check (isManifest : bool)
    (messages : ConflictDetectionMessages) (inputs : Response string)
  : Async World (Response string) :=
  let* enabled := read (conflictDetectionEnabled env) in
  if negb enabled then ret inputs
  else
    match inputs with
    | CONTINUE data =>
        emit ShowChannelOutput ;;
        emit (ShowCommandWithTimestamp
                (localize env "channel_starting_message" []
                 +:+ localize env "conflict_detect_execution_name" []
                 +:+ LF)) ;;
        let* username := read (workspaceUsername env) in
        match nonempty username with
        | None =>
            ret (CANCEL (Some (localize env "conflict_detect_no_default_username" [])))
        | Some username =>
            let componentPath := data in
            (* the [try] block returns from [check]; after the [catch]
               block control reaches the final [return {type: 'CANCEL'}] *)
            try_catch
              (let* result :=
                 loadCache username componentPath (getRootWorkspacePath env)
                   isManifest in
               let* diffs := createDiffs result in
               emit (ShowCommandWithTimestamp
                       (localize env "channel_end" [] +:+ " "
                        +:+ localize env "conflict_detect_execution_name" []
                        +:+ LF)) ;;
               timestamp_handleConflicts messages data username diffs)
              timestamp_catch
        end
    | CANCEL _ => ret (CANCEL None)
    end.

Definition TimestampConflictChecker (isManifest : bool)
    (messages : ConflictDetectionMessages)
  : PostconditionChecker World string :=
  {| check := timestamp_check isManifest messages |}.
End Checkers.

(** The lines [`${type}:${fileName}\n`] of some components, one after the
    other. *)
Definition listed (components : list LocalComponent) : string :=
  foldr (fun component text =>
           (type component +:+ ":" +:+ fileName component +:+ LF) +:+ text)
        "" components.

(** The number of [unlock()] calls among some events. *)
Definition unlock_count (events : list Event) : nat :=
  length (filter (fun e => e = Unlock) events).

(** Calls on the comparison collaborators and on the prompt. *)
Definition is_comparison_or_prompt (e : Event) : bool :=
  match e with
  | ShowWarningModal _ _ | CheckForConflicts _ | LoadCache _ _ _ _
  | CreateDiffs _ => true
  | _ => false
  end.

(** The warning modals among the calls. *)
Definition is_warning_modal (e : Event) : bool :=
  match e with
  | ShowWarningModal _ _ => true
  | _ => false
  end.

(** What [getFileExtensions] reports for a component without a suffix. *)
Definition missing_suffix_report (env : Collaborators)
    (component : LocalComponent) : list Event :=
  [ShowErrorMessage (localize env "error_overwrite_prompt" []);
   SendException "OverwriteComponentPromptException"
     ("Missing suffix for " +:+ type component)].

(** What the timestamp checker writes to the output channel before it
    looks for the username. *)
Definition timestamp_announcement (env : Collaborators) : list Event :=
  [ShowChannelOutput;
   ShowCommandWithTimestamp
     (localize env "channel_starting_message" []
      +:+ localize env "conflict_detect_execution_name" [] +:+ LF)].

(** ** A concrete set of collaborators

    English labels, a scripted user, a fixed set of files on disk and
    fixed answers of the remote services; used to run the checkers on
    concrete inputs. *)
Module Fixture.
Definition render (a : LocalizeArg) : string :=
  match a with
  | LStr s => s
  | LNum n => pretty n
  end.

Definition label (key : string) : string :=
  if String.eqb key "warning_prompt_overwrite" then "Overwrite"
  else if String.eqb key "warning_prompt_skip" then "Skip"
  else if String.eqb key "warning_prompt_overwrite_all" then "Overwrite All"
  else if String.eqb key "warning_prompt_skip_all" then "Skip All"
  else key.

Definition english (key : string) (args : list LocalizeArg) : string :=
  foldl (fun text a => text +:+ "|" +:+ render a) (label key) args.

Definition is_modal (e : Event) : bool :=
  match e with ShowWarningModal _ _ => true | _ => false end.

(** The user answers the [n]-th modal with the [n]-th scripted choice and
    dismisses every modal after the script has ended. *)
Definition scripted (script : list (option string)) (history : World)
    (message : string) (options : list string) : option string :=
  mjoin (script !! length (List.filter is_modal history)).

Definition defaultStrategy : PathStrategy :=
  fun dirPath fileName fileExt => dirPath +:+ "/" +:+ fileName +:+ fileExt.

Definition collaborators (enabled : bool) (user : option string)
    (script : list (option string)) (files : list string)
    (cache : Outcome MetadataCacheResult)
    (diffs : Outcome DirectoryDiffResults) : Collaborators :=
  {| localize := english;
     conflictDetectionEnabled := fun _ => enabled;
     workspaceUsername := fun _ => user;
     modalChoice := scripted script;
     conflictsFound := fun _ _ => diffs;
     cacheLoaded := fun _ _ _ _ _ => cache;
     diffsCreated := fun _ => diffs;
     getInfo := fun _ => None;
     createDefaultStrategy := defaultStrategy;
     fileExists := fun _ path => bool_decide (path ∈ files);
     getRootWorkspacePath := "/ws";
     join := fun a b => a +:+ "/" +:+ b;
     basename := fun p => p;
     normalize := fun p => p |}.

Definition noDiffs : DirectoryDiffResults :=
  {| different := []; scannedRemote := 0; scannedLocal := 0 |}.

(** Only prompts matter: the overwrite prompt over given files. *)
Definition prompting (script : list (option string)) (files : list string)
  : Collaborators :=
  collaborators true (Some "user@example.com") script files
    (Returned (CacheResult 0)) (Returned noDiffs).

Definition apexClass (i : nat) (name : string) : LocalComponent :=
  {| oid := i; fileName := name; outputdir := "classes"; type := "ApexClass";
     suffix := Some "cls" |}.

Definition path_of (name : string) : string :=
  "/ws/classes/" +:+ name +:+ ".cls-meta.xml".

Definition classA : LocalComponent := apexClass 1 "A".
Definition classB : LocalComponent := apexClass 2 "B".
Definition classC : LocalComponent := apexClass 3 "C".

Definition messages : ConflictDetectionMessages :=
  {| warningMessageKey := "conflict_detect_conflicts_during_deploy";
     commandHint := fun input => "sfdx force:source:deploy -p " +:+ input |}.

(** A stub checker over a counter world: counts its calls and answers
    with a fixed response, whatever it is given. *)
Definition stub (answer : Response nat) : PostconditionChecker nat nat :=
  {| check := fun _ calls => (Returned answer, S calls) |}.

(** The same collaborators with a user who gives one fixed answer to
    every modal. *)
Definition answering (answer : option string) (base : Collaborators)
  : Collaborators :=
  {| localize := localize base;
     conflictDetectionEnabled := conflictDetectionEnabled base;
     workspaceUsername := workspaceUsername base;
     modalChoice := fun _ _ _ => answer;
     conflictsFound := conflictsFound base;
     cacheLoaded := cacheLoaded base;
     diffsCreated := diffsCreated base;
     getInfo := getInfo base;
     createDefaultStrategy := createDefaultStrategy base;
     fileExists := fileExists base;
     getRootWorkspacePath := getRootWorkspacePath base;
     join := join base;
     basename := basename base;
     normalize := normalize base |}.

(** A checker over the same world that counts its call and rejects. *)
Definition failing (e : JsError) : PostconditionChecker nat nat :=
  {| check := fun _ calls => (Thrown e, S calls) |}.

(** A checker that adds [n] to the payload it is given. *)
Definition adding (n : nat) : PostconditionChecker nat nat :=
  {| check := fun inputs calls =>
       match inputs with
       | CONTINUE d => (Returned (CONTINUE (d + n)), S calls)
       | CANCEL m => (Returned (CANCEL m), S calls)
       end |}.
End Fixture.

(** ** Gatherers of the authorization parameters

    The two parameter gatherers of the org authorization commands
    ([commands/auth/authParamsGatherer.ts]).  They talk to the user through
    a quick pick and input boxes and read the login URL of the project
    configuration. *)
Module AuthParams.
Definition DEFAULT_ALIAS : string := "vscodeOrg".
Definition PRODUCTION_URL : string := "https://login.salesforce.com".
Definition SANDBOX_URL : string := "https://test.salesforce.com".
Definition INSTANCE_URL_PLACEHOLDER : string := "https://na35.salesforce.com".

Record AuthParams : Type := {
  alias : string;
  loginUrl : string
}.

(** [AccessTokenParams]; its [alias] field is [tokenAlias] here. *)
Record AccessTokenParams : Type := {
  tokenAlias : string;
  instanceUrl : string;
  accessToken : string
}.

(** [OrgTypeItem], a [vscode.QuickPickItem]. *)
Record QuickPickItem : Type := {
  label : string;
  detail : string
}.

(** The fields of [vscode.InputBoxOptions] that the gatherers set. *)
Record InputBoxOptions : Type := {
  prompt : option string;
  placeHolder : option string;
  value : option string;
  password : bool;
  validateInput : option (string -> option string)
}.

Inductive UiEvent : Type :=
  | GetValue (key : string)
  | ShowQuickPick (items : list QuickPickItem)
  | ShowInputBox (options : InputBoxOptions).

Definition UiWorld : Type := list UiEvent.

Definition is_input_box (e : UiEvent) : bool :=
  match e with
  | ShowInputBox _ => true
  | _ => false
  end.

(** The collaborators: [nls.localize] with a key alone, the value that
    [SfdxProjectConfig.getValue] resolves to (it may reject), the item
    picked in a quick pick and the text entered in an input box, [None]
    when the user dismisses them. *)
Record Ui : Type := {
  localizeKey : string -> string;
  configValue : UiWorld -> string -> Outcome (option string);
  picked : UiWorld -> list QuickPickItem -> option QuickPickItem;
  entered : UiWorld -> InputBoxOptions -> option string
}.

(** [s.includes(needle)] *)
Fixpoint includes (needle s : string) : bool :=
  String.prefix needle s
  || match s with
     | EmptyString => false
     | String _ rest => includes needle rest
     end.

(** [expr.test(url)] for the regular expression of [validateUrl]: [http],
    an optional [s], [://], then a group of any characters.  The expression
    is not anchored and the group also matches the empty string, so the
    test succeeds exactly when [http://] or [https://] occurs somewhere in
    [url]. *)
Definition matches_url_expr (url : string) : bool :=
  includes "http://" url || includes "https://" url.

Section Gatherers.
Context (ui : Ui).

Definition getValue (key : string) : Async UiWorld (option string) :=
  fun w => (configValue ui w key, w ++ [GetValue key]).

Definition showQuickPick (items : list QuickPickItem)
  : Async UiWorld (option QuickPickItem) :=
  fun w => (Returned (picked ui w items), w ++ [ShowQuickPick items]).

Definition showInputBox (options : InputBoxOptions)
  : Async UiWorld (option string) :=
  fun w => (Returned (entered ui w options), w ++ [ShowInputBox options]).

(** [AuthParamsGatherer.validateUrl]: [null] for an accepted URL, the
    message otherwise. *)
Definition validateUrl (url : string) : option string :=
  if matches_url_expr url then None
  else Some (localizeKey ui "auth_invalid_url").

Definition OrgTypeItem (localizeLabel localizeDetail : string) : QuickPickItem :=
  {| label := localizeKey ui localizeLabel;
     detail := localizeKey ui localizeDetail |}.

(** [this.orgTypes] *)
Definition orgTypes_project : QuickPickItem :=
  OrgTypeItem "auth_project_label" "auth_project_detail".
Definition orgTypes_production : QuickPickItem :=
  OrgTypeItem "auth_prod_label" "auth_prod_detail".
Definition orgTypes_sandbox : QuickPickItem :=
  OrgTypeItem "auth_sandbox_label" "auth_sandbox_detail".
Definition orgTypes_custom : QuickPickItem :=
  OrgTypeItem "auth_custom_label" "auth_custom_detail".

Definition inputInstanceUrl_options : InputBoxOptions :=
  {| prompt := Some (localizeKey ui "parameter_gatherer_enter_instance_url");
     placeHolder := Some INSTANCE_URL_PLACEHOLDER;
     value := None;
     password := false;
     validateInput := Some validateUrl |}.

Definition inputInstanceUrl : Async UiWorld (option string) :=
  showInputBox inputInstanceUrl_options.

Definition alias_options : InputBoxOptions :=
  {| prompt := Some (localizeKey ui "parameter_gatherer_enter_alias_name");
     placeHolder := Some DEFAULT_ALIAS;
     value := None;
     password := false;
     validateInput := None |}.

Definition inputAlias : Async UiWorld (option string) :=
  showInputBox alias_options.

Definition accessToken_options : InputBoxOptions :=
  {| prompt := None;
     placeHolder := Some "Enter access token";
     value := Some "";
     password := true;
     validateInput :=
       Some (fun text =>
               if negb (String.eqb text "") then None
               else Some "Enter a valid access token") |}.

Definition inputAccessToken : Async UiWorld (option string) :=
  showInputBox accessToken_options.

Definition customUrl_options : InputBoxOptions :=
  {| prompt := Some (localizeKey ui "parameter_gatherer_enter_custom_url");
     placeHolder := Some PRODUCTION_URL;
     value := None;
     password := false;
     validateInput := Some validateUrl |}.

Definition getProjectLoginUrl : Async UiWorld (option string) :=
  getValue "sfdcLoginUrl".

(** [getQuickPickItems] also stores the new detail in
    [this.orgTypes.project]; the stored detail is overwritten before every
    use, so the gatherer's state is not threaded. *)
Definition getQuickPickItems : Async UiWorld (list QuickPickItem) :=
  let* projectUrl := getProjectLoginUrl in
  let items := [orgTypes_production; orgTypes_sandbox; orgTypes_custom] in
  match nonempty projectUrl with
  | Some projectUrl =>
      let project :=
        {| label := label orgTypes_project;
           detail := localizeKey ui "auth_project_detail"
                     +:+ " (" +:+ projectUrl +:+ ")" |} in
      ret (project :: items)
  | None => ret items
  end.

(** [x || fallback] for a string that may be [undefined]. *)
Definition or_else (x : option string) (fallback : string) : string :=
  default fallback (nonempty x).

(** The tail of [AuthParamsGatherer.gather], once [loginUrl] is known. *)
Definition gather_alias (loginUrl : option string)
  : Async UiWorld (Response AuthParams) :=
  let* alias := showInputBox alias_options in
  match alias with
  | None => ret (CANCEL None)
  | Some alias =>
      ret (CONTINUE {| alias := or_else (Some alias) DEFAULT_ALIAS;
                       loginUrl := or_else loginUrl PRODUCTION_URL |})
  end.

Definition gather : Async UiWorld (Response AuthParams) :=
  let* quickPickItems := getQuickPickItems in
  let* selection := showQuickPick quickPickItems in
  match selection with
  | None => ret (CANCEL None)
  | Some selection =>
      let orgType := label selection in
      if bool_decide (orgType = label orgTypes_custom) then
        let* loginUrl := showInputBox customUrl_options in
        match loginUrl with
        | None => ret (CANCEL None)
        | Some _ => gather_alias loginUrl
        end
      else if bool_decide (orgType = label orgTypes_project) then
        let* loginUrl := getProjectLoginUrl in
        gather_alias loginUrl
      else
        gather_alias
          (Some (if bool_decide (orgType = "Sandbox") then SANDBOX_URL
                 else PRODUCTION_URL))
  end.

(** [AccessTokenParamsGatherer.gather] *)
Definition gatherAccessToken : Async UiWorld (Response AccessTokenParams) :=
  let* instanceUrl := inputInstanceUrl in
  match instanceUrl with
  | None => ret (CANCEL None)
  | Some instanceUrl =>
      let* alias := inputAlias in
      match alias with
      | None => ret (CANCEL None)
      | Some alias =>
          let* accessToken := inputAccessToken in
          match accessToken with
          | None => ret (CANCEL None)
          | Some accessToken =>
              ret (CONTINUE {| accessToken := accessToken;
                               tokenAlias := alias;
                               instanceUrl := instanceUrl |})
          end
      end
  end.
End Gatherers.

(** A user interface for running the gatherers: English labels, a fixed
    project login URL, a user who picks the item with a given label and
    types the texts of a script, one per input box. *)
Definition english_ui (projectUrl : option string) (pick : option string)
    (texts : list (option string)) : Ui :=
  {| localizeKey := fun key =>
       if String.eqb key "auth_sandbox_label" then "Sandbox"
       else if String.eqb key "auth_prod_label" then "Production"
       else if String.eqb key "auth_custom_label" then "Custom"
       else if String.eqb key "auth_project_label" then "Project Default"
       else key;
     configValue := fun _ _ => Returned projectUrl;
     picked := fun _ items =>
       pick ≫= fun wanted =>
         head (filter (fun item => label item = wanted) items);
     entered := fun w _ =>
       mjoin (texts !! length (List.filter is_input_box w)) |}.
End AuthParams.

(** * Properties *)

(** ** Running computations *)

Lemma bind_returned {W A B} (m : Async W A) (k : A -> Async W B) w a w' :
  m w = (Returned a, w') -> bind m k w = k a w'.
Proof. intros H. unfold bind. by rewrite H. Qed.

Lemma bind_thrown {W A B} (m : Async W A) (k : A -> Async W B) w e w' :
  m w = (Thrown e, w') -> bind m k w = (Thrown e, w').
Proof. intros H. unfold bind. by rewrite H. Qed.

Lemma bind_inv {W A B} (m : Async W A) (k : A -> Async W B) w b w2 :
  bind m k w = (Returned b, w2) ->
  exists a w1, m w = (Returned a, w1) /\ k a w1 = (Returned b, w2).
Proof.
  unfold bind. destruct (m w) as [[a|e] w1]; [eauto | discriminate].
Qed.

(** ** The composite checker *)

Section CompositeFacts.
Context {W T : Type}.
Implicit Types (cs : list (PostconditionChecker W T)) (c : PostconditionChecker W T).

Lemma composite_loop_cancel_at cs : forall i c (d d1 : T) m w w1 w2,
  cs !! i = Some c ->
  composite_loop (take i cs) (CONTINUE d) w = (Returned (CONTINUE d1), w1) ->
  check c (CONTINUE d1) w1 = (Returned (CANCEL m), w2) ->
  composite_loop cs (CONTINUE d) w = (Returned (CANCEL None), w2).
Proof.
  induction cs as [|c0 cs IH]; intros [|i] c d d1 m w w1 w2 Hc Hpre Hcancel;
    simplify_eq/=.
  - unfold ret in Hpre. simplify_eq.
    by rewrite (bind_returned _ _ _ _ _ Hcancel).
  - apply bind_inv in Hpre as (r & w0 & Hc0 & Hrest).
    rewrite (bind_returned _ _ _ _ _ Hc0).
    destruct r as [d0|m0]; [eauto | discriminate].
Qed.

End CompositeFacts.



(** C10. The composite never forwards an inner checker's cancellation
    message: when the checker that cancels answers with a Cancel carrying a
    message, the composite answers with a Cancel that carries none. *)
Theorem composite_drops_cancel_message {W T}
    (cs : list (PostconditionChecker W T)) (i : nat)
    (c : PostconditionChecker W T) (d d1 : T) (text : string) (w w1 w2 : W) :
  cs !! i = Some c ->
  check (CompositePostconditionChecker (take i cs)) (CONTINUE d) w
    = (Returned (CONTINUE d1), w1) ->
  check c (CONTINUE d1) w1 = (Returned (CANCEL (Some text)), w2) ->
  exists r w',
    check (CompositePostconditionChecker cs) (CONTINUE d) w = (Returned r, w')
    /\ r = CANCEL None /\ r <> CANCEL (Some text).
Proof.
  intros Hc Hpre Hcancel. exists (CANCEL None), w2. split; [|done].
  simpl in *. eapply composite_loop_cancel_at; eauto.
Qed.

Lemma composite_drops_cancel_message_witness :
  exists r w',
    check (CompositePostconditionChecker
             [Fixture.stub (CONTINUE 7); Fixture.stub (CANCEL (Some "no"))])
          (CONTINUE 1) 0 = (Returned r, w')
    /\ r = CANCEL None /\ r <> CANCEL (Some "no").
Proof.
  exact (composite_drops_cancel_message
           [Fixture.stub (CONTINUE 7); Fixture.stub (CANCEL (Some "no"))]
           1 (Fixture.stub (CANCEL (Some "no"))) 1 7 "no" 0 1 2
           eq_refl eq_refl eq_refl).
Defined.

(** C9. The empty checker returns its input unchanged, whether it is a
    Continue with any payload or a Cancel with or without a message, and
    leaves the world as it was. *)
Theorem empty_checker_identity {W T} (x : Response T) (w : W) :
  check EmptyPostChecker x w = (Returned x, w).
Proof. reflexivity. Qed.

(** ** The conflict checkers *)

(** C7. With conflict detection disabled in the settings, the manifest
    checker and the timestamp checker both return their input, Continue or
    Cancel, as it is, and the world is left untouched: no comparison, no
    prompt and no write to the output channel takes place. *)
Theorem disabled_checkers_pass_through (env : Collaborators)
    (messages : ConflictDetectionMessages) (isManifest : bool)
    (inputs : Response string) (w : World) :
  conflictDetectionEnabled env w = false ->
  check (ConflictDetectionChecker env messages) inputs w = (Returned inputs, w)
  /\ check (TimestampConflictChecker env isManifest messages) inputs w
     = (Returned inputs, w).
Proof.
  intros Hoff. simpl. unfold conflict_check, timestamp_check, bind, read.
  by rewrite Hoff.
Qed.

Lemma disabled_checkers_pass_through_witness :
  let env := Fixture.collaborators false None [] [] (Thrown TypeError)
               (Thrown TypeError) in
  check (ConflictDetectionChecker env Fixture.messages)
        (CANCEL (Some "stop")) [Unlock]
    = (Returned (CANCEL (Some "stop")), [Unlock])
  /\ check (TimestampConflictChecker env true Fixture.messages)
        (CANCEL (Some "stop")) [Unlock]
    = (Returned (CANCEL (Some "stop")), [Unlock]).
Proof.
  intros env.
  exact (disabled_checkers_pass_through env Fixture.messages true
           (CANCEL (Some "stop")) [Unlock] eq_refl).
Defined.

(** C8. With conflict detection enabled and a Continue input, when the
    workspace has no username (undefined or empty), both conflict checkers
    answer Cancel with the localized "no default username" message.  The
    manifest checker has called nothing by then; the timestamp checker has
    only announced itself on the output channel; neither has called a
    comparison collaborator or shown a prompt. *)
Theorem missing_username_cancels (env : Collaborators)
    (messages : ConflictDetectionMessages) (isManifest : bool)
    (data : string) (w : World) :
  conflictDetectionEnabled env w = true ->
  nonempty (workspaceUsername env w) = None ->
  nonempty (workspaceUsername env (w ++ timestamp_announcement env)) = None ->
  let cancelled : Response string :=
    CANCEL (Some (localize env "conflict_detect_no_default_username" [])) in
  check (ConflictDetectionChecker env messages) (CONTINUE data) w
    = (Returned cancelled, w)
  /\ check (TimestampConflictChecker env isManifest messages) (CONTINUE data) w
    = (Returned cancelled, w ++ timestamp_announcement env)
  /\ existsb is_comparison_or_prompt (timestamp_announcement env) = false.
Proof.
  intros Hon Hu Hu' cancelled.
  cbn [check ConflictDetectionChecker TimestampConflictChecker].
  split; [|split; [|done]].
  - unfold conflict_check, bind, read. rewrite Hon. cbn [negb]. cbv beta.
    by rewrite Hu.
  - unfold timestamp_check, bind, read, emit. rewrite Hon.
    cbn [negb]. cbv beta. rewrite <- app_assoc.
    change ([ShowChannelOutput] ++ _) with (timestamp_announcement env).
    by rewrite Hu'.
Qed.

Lemma missing_username_cancels_witness :
  let env := Fixture.collaborators true (Some "") [] [] (Thrown TypeError)
               (Thrown TypeError) in
  check (ConflictDetectionChecker env Fixture.messages)
        (CONTINUE "manifest/package.xml") []
    = (Returned (CANCEL (Some "conflict_detect_no_default_username")), [])
  /\ check (TimestampConflictChecker env false Fixture.messages)
        (CONTINUE "manifest/package.xml") []
    = (Returned (CANCEL (Some "conflict_detect_no_default_username")),
       timestamp_announcement env).
Proof.
  intros env.
  pose proof (missing_username_cancels env Fixture.messages false
                "manifest/package.xml" [] eq_refl eq_refl eq_refl)
    as (H1 & H2 & _).
  exact (conj H1 H2).
Defined.

(** What the catch block of the timestamp checker does with a caught
    value that has a string rendering: it logs, reports, unlocks once and
    falls through to the final Cancel. *)
Lemma timestamp_catch_printable (env : Collaborators) (error : JsError)
    (rendered : string) (w : World) :
  toString error = Returned rendered ->
  timestamp_catch env error w
  = (Returned (CANCEL None),
     w ++ [ConsoleError error;
           AppendLine (localize env "conflict_detect_error" [LStr rendered]);
           SendException "ConflictDetectionException"
             (localize env "conflict_detect_error" [LStr rendered]);
           Unlock]).
Proof.
  intros Hrender. unfold timestamp_catch, bind, emit, settle, ret.
  rewrite Hrender. by rewrite <- !app_assoc.
Qed.

(** C4. The snapshot loader rejects with [undefined] (and, in a second
    run, the diff builder throws [null]), with conflict detection enabled,
    a Continue input and a username in the workspace.  The catch block logs
    the value and then evaluates [error.toString()], which throws a
    [TypeError] before anything is written or unlocked: [check] rejects
    with that [TypeError] instead of answering Cancel, and there is no
    [unlock()] among its calls. *)
Theorem timestamp_nullish_failure_keeps_the_lock :
  let loading := Fixture.collaborators true (Some "user@example.com") [] []
                   (Thrown Undefined) (Returned Fixture.noDiffs) in
  let diffing := Fixture.collaborators true (Some "user@example.com") [] []
                   (Returned (CacheResult 0)) (Thrown Null) in
  let after_load :=
    timestamp_announcement loading
    ++ [LoadCache "user@example.com" "force-app/main" "/ws" false;
        ConsoleError Undefined] in
  let after_diff :=
    timestamp_announcement diffing
    ++ [LoadCache "user@example.com" "force-app/main" "/ws" false;
        CreateDiffs (CacheResult 0);
        ConsoleError Null] in
  check (TimestampConflictChecker loading false Fixture.messages)
        (CONTINUE "force-app/main") []
  = (Thrown TypeError, after_load)
  /\ unlock_count after_load = 0
  /\ check (TimestampConflictChecker diffing false Fixture.messages)
        (CONTINUE "force-app/main") []
     = (Thrown TypeError, after_diff)
  /\ unlock_count after_diff = 0.
Proof. repeat split. Qed.

(** ** The dialog of the overwrite prompt *)

Lemma append_nil_r (s : string) : s +:+ "" = s.
Proof.
  induction s as [|a s IH]; [done|].
  change (String a (s +:+ "") = String a s). by rewrite IH.
Qed.

Lemma append_assoc (s1 s2 s3 : string) :
  (s1 +:+ s2) +:+ s3 = s1 +:+ (s2 +:+ s3).
Proof.
  induction s1 as [|a s1 IH]; [done|].
  change (String a ((s1 +:+ s2) +:+ s3) = String a (s1 +:+ (s2 +:+ s3))).
  by rewrite IH.
Qed.

Section DialogFacts.
Context (env : Collaborators).

(** The loop started [k] entries after [currentIndex + 1], with at most
    ten entries listed so far. *)
Lemma dialogBody_loop_spec (existingLength currentIndex : nat) :
  forall rest k body,
    k <= 10 ->
    dialogBody_loop env existingLength currentIndex (currentIndex + 1 + k)
      rest body
    = if bool_decide (10 - k < length rest) then
        body +:+ listed (take (10 - k) rest)
        +:+ localize env "warning_prompt_other_not_shown"
              [LNum (Z.of_nat existingLength - Z.of_nat currentIndex - 11)]
      else body +:+ listed rest.
Proof.
  induction rest as [|c rest IH]; intros k body Hk;
    cbn [dialogBody_loop length].
  - rewrite bool_decide_eq_false_2 by lia.
    change (listed []) with "". by rewrite append_nil_r.
  - case_bool_decide as Hj.
    + assert (k = 10) as -> by lia.
      by rewrite bool_decide_eq_true_2 by lia.
    + replace (S (currentIndex + 1 + k)) with (currentIndex + 1 + S k) by lia.
      rewrite IH by lia.
      replace (10 - k) with (S (10 - S k)) by lia.
      change (listed (take (S (10 - S k)) (c :: rest)))
        with ((type c +:+ ":" +:+ fileName c +:+ LF)
              +:+ listed (take (10 - S k) rest)).
      change (listed (c :: rest))
        with ((type c +:+ ":" +:+ fileName c +:+ LF) +:+ listed rest).
      case_bool_decide; case_bool_decide; try lia;
        by rewrite !append_assoc.
Qed.
End DialogFacts.

(** C6. When more than ten found items follow index [i], the body of the
    dialog message at [i] is the lines of exactly the ten items at indices
    [i+1..i+10], followed by the "others not shown" summary for
    [N - i - 11] items, and nothing else; the message is the localized
    overwrite question about item [i] around that body. *)
Theorem dialog_message_truncated (env : Collaborators)
    (foundComponents : list LocalComponent) (i : nat) (w : World) :
  let N := Z.of_nat (length foundComponents) in
  (N - Z.of_nat i - 1 > 10)%Z ->
  dialogBody env foundComponents i
  = listed (take 10 (drop (i + 1) foundComponents))
    +:+ localize env "warning_prompt_other_not_shown"
          [LNum (N - Z.of_nat i - 11)]
  /\ length (take 10 (drop (i + 1) foundComponents)) = 10
  /\ exists current,
       foundComponents !! i = Some current
       /\ buildDialogMessage env foundComponents i w
          = (Returned
               (localize env "warning_prompt_overwrite_message"
                  [LStr (type current); LStr (fileName current);
                   LStr (localize env "warning_prompt_other_existing"
                           [LNum (N - Z.of_nat i - 1)]);
                   LStr (dialogBody env foundComponents i)]),
             w).
Proof.
  intros N Hmore. subst N. split; [|split].
  - unfold dialogBody.
    replace (i + 1) with (i + 1 + 0) at 1 by lia.
    rewrite dialogBody_loop_spec by lia.
    rewrite bool_decide_eq_true_2 by (rewrite length_drop; lia).
    done.
  - rewrite length_take, length_drop. lia.
  - destruct (foundComponents !! i) as [current|] eqn:Hcur.
    + exists current. split; [done|].
      unfold buildDialogMessage. rewrite Hcur.
      by rewrite bool_decide_eq_true_2 by lia.
    + apply lookup_ge_None in Hcur. lia.
Qed.

Lemma dialog_message_truncated_witness :
  let env := Fixture.prompting [] [] in
  let foundComponents :=
    map (fun k => Fixture.apexClass k ("C" +:+ pretty k)) (seq 0 13) in
  dialogBody env foundComponents 1
  = listed (map (fun k => Fixture.apexClass k ("C" +:+ pretty k)) (seq 2 10))
    +:+ "warning_prompt_other_not_shown|1".
Proof.
  intros env foundComponents.
  exact (proj1 (dialog_message_truncated env foundComponents 1 []
                  ltac:(vm_compute; reflexivity))).
Defined.

(** C5 (amended). For a batch of exactly one found item and an empty skip
    set, the only choice offered is Overwrite: neither "remaining" choice
    is offered, and Skip is not offered either (dismissing the modal is the
    other outcome). *)
Theorem single_item_offers_only_overwrite (env : Collaborators)
    (component : LocalComponent) (currentIndex : nat) :
  buildDialogOptions env [component] ∅ currentIndex
  = [localize env "warning_prompt_overwrite" []].
Proof.
  unfold buildDialogOptions. rewrite size_empty. simpl.
  by rewrite bool_decide_eq_false_2 by lia.
Qed.

(** C5, as stated, fails: for one found item and an empty skip set the
    offered choices are not Overwrite and Skip; Skip is missing. *)
Lemma single_item_skip_not_offered :
  let env := Fixture.prompting [] [] in
  let options := buildDialogOptions env [Fixture.apexClass 1 "Account"] ∅ 0 in
  options = ["Overwrite"]
  /\ options <> [localize env "warning_prompt_overwrite" [];
                 localize env "warning_prompt_skip" []]
  /\ localize env "warning_prompt_skip" [] ∉ options.
Proof.
  assert (buildDialogOptions (Fixture.prompting [] [])
            [Fixture.apexClass 1 "Account"] ∅ 0 = ["Overwrite"]) as H.
  { unfold buildDialogOptions. rewrite size_empty. reflexivity. }
  intros env options. subst env options. rewrite H. split; [done|].
  split; [discriminate|].
  intros Hin. apply list_elem_of_singleton in Hin. discriminate.
Qed.

(** ** The batch decision procedure *)

Section PromptFacts.
Context (env : Collaborators).

Lemma ret_inv {A} (x y : A) (w w' : World) :
  ret x w = (Returned y, w') -> x = y /\ w = w'.
Proof. unfold ret. by intros [= -> ->]. Qed.

(** Whatever is answered, a skip set that the procedure returns holds
    only components skipped so far or still to be decided. *)
Lemma promptOverwrite_loop_subset foundComponents :
  forall rest skipped i w S w',
    promptOverwrite_loop env foundComponents skipped i rest w
    = (Returned (Some S), w') ->
    S ⊆ skipped ∪ list_to_set rest.
Proof.
  induction rest as [|current rest IH]; intros skipped i w S w' Hrun;
    cbn [promptOverwrite_loop] in Hrun.
  - apply ret_inv in Hrun as [[= <-] _]. apply union_subseteq_l.
  - apply bind_inv in Hrun as (message & w1 & _ & Hrun).
    apply bind_inv in Hrun as (choice & w2 & _ & Hrun).
    rewrite list_to_set_cons.
    repeat (case_bool_decide as Hchoice; clear Hchoice).
    + apply IH in Hrun. clear IH.
      intros x Hx. apply Hrun in Hx. set_unfold. tauto.
    + apply IH in Hrun. clear IH.
      intros x Hx. apply Hrun in Hx. set_unfold. tauto.
    + apply ret_inv in Hrun as [[= <-] _]. apply union_subseteq_l.
    + apply ret_inv in Hrun as [[= <-] _]. apply union_subseteq_r.
    + by apply ret_inv in Hrun as [? _].
Qed.

Lemma promptOverwrite_subset foundComponents w S w' :
  promptOverwrite env foundComponents w = (Returned (Some S), w') ->
  S ⊆ list_to_set foundComponents.
Proof.
  intros Hrun. apply promptOverwrite_loop_subset in Hrun.
  by rewrite (left_id_L ∅ (∪)) in Hrun.
Qed.
End PromptFacts.

(** C3. Three found items; the user skips the first and then picks
    "Skip All (2)" at index 1, a choice offered there.  The procedure stops
    after that second prompt and returns the items from index 1 on, but
    not the item skipped before: the result differs from the skip set
    accumulated so far unioned with the items from index 1 to the end. *)
Theorem skip_remaining_forgets_earlier_skips :
  let env := Fixture.prompting [Some "Skip"; Some "Skip All (2)"] [] in
  let found := [Fixture.classA; Fixture.classB; Fixture.classC] in
  let accumulated : gset LocalComponent := {[Fixture.classA]} in
  let S : gset LocalComponent := list_to_set (drop 1 found) in
  promptOverwrite env found []
  = (Returned (Some S),
     [ShowWarningModal
        (Fixture.english "warning_prompt_overwrite_message"
           [LStr "ApexClass"; LStr "A"; LStr "warning_prompt_other_existing|2";
            LStr (listed [Fixture.classB; Fixture.classC])])
        ["Overwrite"; "Skip"; "Overwrite All (3)"; "Skip All (3)"];
      ShowWarningModal
        (Fixture.english "warning_prompt_overwrite_message"
           [LStr "ApexClass"; LStr "B"; LStr "warning_prompt_other_existing|1";
            LStr (listed [Fixture.classC])])
        ["Overwrite"; "Skip"; "Overwrite All (2)"; "Skip All (2)"]])
  /\ (Fixture.classA ∉ S)
  /\ S <> (accumulated ∪ list_to_set (drop 1 found)).
Proof.
  intros env found accumulated S.
  assert (Hnot : Fixture.classA ∉ S).
  { subst S found. cbn [drop]. set_unfold. by intros [[=]|[[=]|[]]]. }
  split; [reflexivity|]. split; [exact Hnot|].
  fold S. intros Heq. apply Hnot. rewrite Heq.
  apply elem_of_union_l. by apply elem_of_singleton.
Qed.

(** ** The overwrite checker *)

(** C2 (amended). Let the overwrite checker be given a Continue input of
    which at least one candidate exists locally.  If the batch prompt
    returns no decision, the result is Cancel.  If it returns a skip set,
    the result is Cancel when the size of the skip set equals the number of
    input candidates; this is the case when the skip set contains all of
    the presented candidates, every input candidate exists locally and no
    candidate occurs twice in the input. *)
Theorem overwrite_cancels_on_dismissal_or_all_skipped (env : Collaborators)
    (data : OneOrMany) (foundComponents : list LocalComponent)
    (toSkip : option (gset LocalComponent)) (w w1 w2 : World) :
  let componentsToCheck :=
    match data with Many components => components | One c => [c] end in
  filterA (componentExists env) componentsToCheck w
    = (Returned foundComponents, w1) ->
  foundComponents <> [] ->
  promptOverwrite env foundComponents w1 = (Returned toSkip, w2) ->
  (toSkip = None
   \/ (exists S, toSkip = Some S /\ size S = length componentsToCheck)
   \/ (exists S, toSkip = Some S
                 /\ list_to_set foundComponents ⊆ S
                 /\ foundComponents = componentsToCheck
                 /\ NoDup componentsToCheck)) ->
  check (OverwriteComponentPrompt env) (CONTINUE data) w
  = (Returned (CANCEL None), w2).
Proof.
  intros componentsToCheck Hfound Hsome Hprompt Hskip.
  assert (Hsize : toSkip = None
                  \/ exists S, toSkip = Some S
                               /\ size S = length componentsToCheck).
  { destruct Hskip as [->|[Hsize|(S & -> & Hall & Heq & Hnodup)]]; auto.
    right. exists S. split; [done|].
    pose proof (promptOverwrite_subset _ _ _ _ _ Hprompt) as Hsub.
    assert (S = list_to_set foundComponents) as ->
      by (apply set_eq; intros x; split; [apply Hsub | apply Hall]).
    rewrite <- Heq in *. by apply size_list_to_set. }
  cbn [check OverwriteComponentPrompt]. unfold overwrite_check.
  fold componentsToCheck.
  rewrite (bind_returned _ _ _ _ _ Hfound).
  rewrite bool_decide_eq_true_2 by (destruct foundComponents; simpl; [done|lia]).
  rewrite (bind_returned _ _ _ _ _ Hprompt).
  destruct Hsize as [->|(S & -> & Hsize)]; [done|].
  by rewrite bool_decide_eq_true_2.
Qed.

Lemma overwrite_cancels_on_dismissal_or_all_skipped_witness :
  let env := Fixture.prompting [Some "Skip All (2)"]
               [Fixture.path_of "A"; Fixture.path_of "B"] in
  check (OverwriteComponentPrompt env)
        (CONTINUE (Many [Fixture.classA; Fixture.classB])) []
  = (Returned (CANCEL None),
     [ShowWarningModal
        (Fixture.english "warning_prompt_overwrite_message"
           [LStr "ApexClass"; LStr "A"; LStr "warning_prompt_other_existing|1";
            LStr (listed [Fixture.classB])])
        ["Overwrite"; "Skip"; "Overwrite All (2)"; "Skip All (2)"]]).
Proof.
  intros env.
  refine (overwrite_cancels_on_dismissal_or_all_skipped env
            (Many [Fixture.classA; Fixture.classB])
            [Fixture.classA; Fixture.classB]
            (Some (list_to_set [Fixture.classA; Fixture.classB])) [] [] _
            eq_refl _ eq_refl _).
  - discriminate.
  - right. right. eexists. split; [reflexivity|]. split; [done|].
    split; [reflexivity|].
    apply NoDup_cons. split; [|apply NoDup_singleton].
    intros Hin. apply list_elem_of_singleton in Hin. discriminate.
Defined.

(** C2, as stated, fails: of three candidates the first two exist locally;
    the user picks "Skip All (2)" at the first prompt, so the prompt
    returns a skip set holding every presented candidate, and the checker
    continues with the third candidate instead of cancelling. *)
Lemma overwrite_continues_when_all_presented_skipped :
  let env := Fixture.prompting [Some "Skip All (2)"]
               [Fixture.path_of "A"; Fixture.path_of "B"] in
  let candidates := [Fixture.classA; Fixture.classB; Fixture.classC] in
  let presented := [Fixture.classA; Fixture.classB] in
  let prompts :=
    [ShowWarningModal
       (Fixture.english "warning_prompt_overwrite_message"
          [LStr "ApexClass"; LStr "A"; LStr "warning_prompt_other_existing|1";
           LStr (listed [Fixture.classB])])
       ["Overwrite"; "Skip"; "Overwrite All (2)"; "Skip All (2)"]] in
  filterA (componentExists env) candidates [] = (Returned presented, [])
  /\ promptOverwrite env presented []
     = (Returned (Some (list_to_set presented)), prompts)
  /\ check (OverwriteComponentPrompt env) (CONTINUE (Many candidates)) []
     = (Returned (CONTINUE (Many [Fixture.classC])), prompts)
  /\ check (OverwriteComponentPrompt env) (CONTINUE (Many candidates)) []
     <> (Returned (CANCEL None), prompts).
Proof.
  intros env candidates presented prompts.
  assert (Hrun : check (OverwriteComponentPrompt env)
                   (CONTINUE (Many candidates)) []
                 = (Returned (CONTINUE (Many [Fixture.classC])), prompts))
    by reflexivity.
  split; [reflexivity|]. split; [reflexivity|]. split; [exact Hrun|].
  rewrite Hrun. discriminate.
Qed.

(** * Further properties *)

(** ** The composite checker: threading, failure, nesting *)

Section CompositeLaws.
Context {W T : Type}.
Implicit Types (cs : list (PostconditionChecker W T)).

(** Running a chain is running its first part and, if that continues, the
    rest on what it produced. *)
Lemma composite_loop_app cs1 cs2 : forall (d : T) w,
  composite_loop (cs1 ++ cs2) (CONTINUE d) w
  = match composite_loop cs1 (CONTINUE d) w with
    | (Returned (CONTINUE d1), w1) => composite_loop cs2 (CONTINUE d1) w1
    | other => other
    end.
Proof.
  induction cs1 as [|c cs1 IH]; intros d w; [done|].
  cbn [app composite_loop]. unfold bind.
  destruct (check c (CONTINUE d) w) as [[[d0|m]|e] w0]; [apply IH|done..].
Qed.

(** A Cancel that the loop answers to a Continue input has no message. *)
Lemma composite_loop_cancel_none cs : forall (d : T) w m w',
  composite_loop cs (CONTINUE d) w = (Returned (CANCEL m), w') -> m = None.
Proof.
  induction cs as [|c cs IH]; intros d w m w' Hrun; [done|].
  cbn [composite_loop] in Hrun. unfold bind in Hrun.
  destruct (check c (CONTINUE d) w) as [[[d0|m0]|e] w0]; [eauto|..].
  - unfold ret in Hrun. by simplify_eq.
  - done.
Qed.

(** With every checker spied, a run that continues to the end has called
    each checker once, in order. *)
Lemma spied_loop_continue cs : forall (d d' : T) from log w w',
  composite_loop cs (CONTINUE d) w = (Returned (CONTINUE d'), w') ->
  composite_loop (spied_from from cs) (CONTINUE d) (log, w)
  = (Returned (CONTINUE d'), (log ++ seq from (length cs), w')).
Proof.
  induction cs as [|c cs IH]; intros d d' from log w w' Hrun.
  - unfold composite_loop, ret in *. simplify_eq. by rewrite app_nil_r.
  - cbn [composite_loop spied_from] in *. unfold bind in *. simpl.
    destruct (check c (CONTINUE d) w) as [[[d0|m0]|e] w0]; [|done..].
    rewrite (IH _ _ (S from) _ _ _ Hrun). by rewrite <- app_assoc.
Qed.

Lemma spied_from_app cs1 cs2 : forall from,
  spied_from from (cs1 ++ cs2)
  = spied_from from cs1 ++ spied_from (from + length cs1) cs2.
Proof.
  induction cs1 as [|c cs1 IH]; intros from; simpl.
  - by rewrite Nat.add_0_r.
  - rewrite IH.
    by replace (S from + length cs1) with (from + S (length cs1)) by lia.
Qed.
End CompositeLaws.

(** X1. Payload threading: when the first part of a chain answers Continue
    with some payload, the whole chain behaves from there on as the rest of
    the chain given that payload (in the world the first part left). *)
Theorem composite_threads_payload {W T}
    (cs1 cs2 : list (PostconditionChecker W T)) (d d1 : T) (w w1 : W) :
  check (CompositePostconditionChecker cs1) (CONTINUE d) w
    = (Returned (CONTINUE d1), w1) ->
  check (CompositePostconditionChecker (cs1 ++ cs2)) (CONTINUE d) w
  = check (CompositePostconditionChecker cs2) (CONTINUE d1) w1.
Proof.
  cbn [check CompositePostconditionChecker composite_check]. intros Hfirst.
  by rewrite composite_loop_app, Hfirst.
Qed.

Lemma composite_threads_payload_witness :
  check (CompositePostconditionChecker
           ([Fixture.adding 1; Fixture.adding 2] ++ [Fixture.adding 4]))
        (CONTINUE 10) 0
  = check (CompositePostconditionChecker [Fixture.adding 4]) (CONTINUE 13) 2.
Proof.
  exact (composite_threads_payload [Fixture.adding 1; Fixture.adding 2]
           [Fixture.adding 4] 10 13 0 2 eq_refl).
Defined.

(** X2. A rejection is not caught: when the checkers before position [i]
    continue and the [i]-th checker throws, the composite throws the same
    error, in the world that checker left, and the checkers after [i] are
    not called. *)
Theorem composite_propagates_exception {W T}
    (cs : list (PostconditionChecker W T)) (i : nat)
    (c : PostconditionChecker W T) (d d1 : T) (e : JsError)
    (log : list nat) (w w1 w2 : W) :
  cs !! i = Some c ->
  check (CompositePostconditionChecker (take i cs)) (CONTINUE d) w
    = (Returned (CONTINUE d1), w1) ->
  check c (CONTINUE d1) w1 = (Thrown e, w2) ->
  check (CompositePostconditionChecker cs) (CONTINUE d) w = (Thrown e, w2)
  /\ check (CompositePostconditionChecker (spied cs)) (CONTINUE d) (log, w)
     = (Thrown e, (log ++ seq 0 (S i), w2)).
Proof.
  cbn [check CompositePostconditionChecker composite_check].
  intros Hc Hpre Hthrow.
  assert (Hsplit : cs = take i cs ++ c :: drop (S i) cs)
    by (symmetry; by apply take_drop_middle).
  split.
  - rewrite Hsplit at 1. rewrite composite_loop_app, Hpre.
    cbn [composite_loop]. unfold bind. by rewrite Hthrow.
  - assert (Hlen : length (take i cs) = i).
    { apply length_take_le. apply lookup_lt_Some in Hc. lia. }
    unfold spied. rewrite Hsplit at 1.
    rewrite spied_from_app, composite_loop_app.
    rewrite (spied_loop_continue _ _ _ 0 log _ _ Hpre).
    rewrite Hlen. cbn [spied_from composite_loop]. unfold bind. simpl.
    rewrite Hthrow. change (0 :: seq 1 i) with (seq 0 (S i)).
    by rewrite seq_S, app_assoc.
Qed.

Lemma composite_propagates_exception_witness :
  let cs := [Fixture.adding 1; Fixture.failing (Error "Error: boom");
             Fixture.adding 2] in
  check (CompositePostconditionChecker cs) (CONTINUE 0) 0
    = (Thrown (Error "Error: boom"), 2)
  /\ check (CompositePostconditionChecker (spied cs)) (CONTINUE 0) ([], 0)
     = (Thrown (Error "Error: boom"), ([0; 1], 2)).
Proof.
  intros cs.
  exact (composite_propagates_exception cs 1
           (Fixture.failing (Error "Error: boom")) 0 1 (Error "Error: boom")
           [] 0 1 2 eq_refl eq_refl eq_refl).
Defined.

(** X3. Nesting is flattening: a composite checker placed inside a chain
    behaves, on every input and in every world, as its own checkers
    spliced into the chain at that place. *)
Theorem composite_flatten {W T}
    (pre mid post : list (PostconditionChecker W T))
    (inputs : Response T) (w : W) :
  check (CompositePostconditionChecker
           (pre ++ CompositePostconditionChecker mid :: post)) inputs w
  = check (CompositePostconditionChecker (pre ++ mid ++ post)) inputs w.
Proof.
  cbn [check CompositePostconditionChecker composite_check].
  destruct inputs as [d|m]; [|done].
  unfold composite_check. rewrite !composite_loop_app.
  destruct (composite_loop pre (CONTINUE d) w) as [[[d1|m1]|e] w1]; [|done..].
  cbn [composite_loop check CompositePostconditionChecker composite_check].
  rewrite composite_loop_app. unfold bind.
  destruct (composite_loop mid (CONTINUE d1) w1) as [[[d2|m2]|e] w2] eqn:Hmid;
    [done| |done].
  apply composite_loop_cancel_none in Hmid as ->. done.
Qed.

(** X4. When the composite answers Continue to a Continue input, every
    checker of the chain has been called exactly once, in the order of the
    chain. *)
Theorem composite_continue_calls_all {W T}
    (cs : list (PostconditionChecker W T)) (d d' : T) (log : list nat)
    (w w' : W) :
  check (CompositePostconditionChecker cs) (CONTINUE d) w
    = (Returned (CONTINUE d'), w') ->
  check (CompositePostconditionChecker (spied cs)) (CONTINUE d) (log, w)
  = (Returned (CONTINUE d'), (log ++ seq 0 (length cs), w')).
Proof.
  cbn [check CompositePostconditionChecker composite_check].
  apply spied_loop_continue.
Qed.

Lemma composite_continue_calls_all_witness :
  check (CompositePostconditionChecker
           (spied [Fixture.adding 1; Fixture.adding 2; Fixture.adding 4]))
        (CONTINUE 10) ([], 0)
  = (Returned (CONTINUE 17), ([0; 1; 2], 3)).
Proof.
  exact (composite_continue_calls_all
           [Fixture.adding 1; Fixture.adding 2; Fixture.adding 4]
           10 17 [] 0 3 eq_refl).
Defined.

(** ** The overwrite prompt: extensions and existence *)

Section ExistenceFacts.
Context (env : Collaborators).

(** [getFileExtensions] returns, and reports at most the missing suffix. *)
Lemma getFileExtensions_returns component w :
  exists extensions events,
    getFileExtensions env component w = (Returned extensions, w ++ events)
    /\ (events = [] \/ events = missing_suffix_report env component).
Proof.
  unfold getFileExtensions.
  destruct (truthy (suffix component)).
  { eexists _, []. rewrite app_nil_r. split; [reflexivity | by left]. }
  destruct (truthy (getInfo env (type component) ≫= info_suffix)).
  { eexists _, []. rewrite app_nil_r. split; [reflexivity | by left]. }
  eexists _, _. split; [|by right].
  unfold bind, emit, ret. by rewrite <- app_assoc.
Qed.

Lemma componentExists_returns component w :
  exists found events,
    componentExists env component w = (Returned found, w ++ events)
    /\ (events = [] \/ events = missing_suffix_report env component)
    /\ ((forall h path, fileExists env h path = false) -> found = false).
Proof.
  destruct (getFileExtensions_returns component w)
    as (extensions & events & Hext & Hevents).
  unfold componentExists. rewrite (bind_returned _ _ _ _ _ Hext).
  eexists _, events. split; [reflexivity|]. split; [done|].
  intros Hnone. clear Hext.
  induction extensions as [|x l IH]; [done|].
  cbn [existsb]. rewrite Hnone. exact IH.
Qed.

(** The kept elements of [filter] are among the given ones, in order. *)
Lemma filterA_sublist {A} (predicate : A -> Async World bool) :
  forall array w kept w',
    filterA predicate array w = (Returned kept, w') -> kept `sublist_of` array.
Proof.
  induction array as [|x array IH]; intros w kept w' Hrun;
    cbn [filterA] in Hrun.
  - unfold ret in Hrun. by simplify_eq.
  - apply bind_inv in Hrun as (keep & w1 & _ & Hrun).
    apply bind_inv in Hrun as (rest & w2 & Hrest & Hrun).
    unfold ret in Hrun. simplify_eq. apply IH in Hrest.
    destruct keep; [by apply sublist_skip | by apply sublist_cons].
Qed.

(** When no component of the array exists locally, the filter keeps
    nothing and shows no prompt. *)
Lemma filterA_none_exists :
  forall components w,
    (forall c h, c ∈ components ->
                 fst (componentExists env c h) = Returned false) ->
    exists events,
      filterA (componentExists env) components w = (Returned [], w ++ events)
      /\ existsb is_comparison_or_prompt events = false.
Proof.
  induction components as [|c components IH]; intros w Hnone; cbn [filterA].
  - exists []. by rewrite app_nil_r.
  - destruct (componentExists_returns c w)
      as (found & ev1 & Hc & Hev1 & _).
    assert (found = false) as ->.
    { specialize (Hnone c w (list_elem_of_here _ _)).
      rewrite Hc in Hnone. by simplify_eq/=. }
    destruct (IH (w ++ ev1)) as (ev2 & Hrest & Hev2).
    { intros c' h Hin. apply Hnone. by apply list_elem_of_further. }
    exists (ev1 ++ ev2).
    rewrite (bind_returned _ _ _ _ _ Hc), (bind_returned _ _ _ _ _ Hrest).
    unfold ret. rewrite app_assoc. split; [done|].
    rewrite existsb_app, Hev2.
    by destruct Hev1 as [-> | ->].
Qed.
End ExistenceFacts.

(** X5. A component without a suffix of its own, of a type for which the
    dictionary has no suffix either, does not stop the check: the missing
    suffix is reported as an error notification and a telemetry exception,
    and the extensions to look for are [.undefined-meta.xml] followed by
    the content extensions of the type, if any. *)
Theorem missing_suffix_is_reported_not_fatal (env : Collaborators)
    (component : LocalComponent) (w : World) :
  truthy (suffix component) = false ->
  truthy (getInfo env (type component) ≫= info_suffix) = false ->
  getFileExtensions env component w
  = (Returned (".undefined-meta.xml"
               :: default [] (getInfo env (type component) ≫= info_extensions)),
     w ++ [ShowErrorMessage (localize env "error_overwrite_prompt" []);
           SendException "OverwriteComponentPromptException"
             ("Missing suffix for " +:+ type component)]).
Proof.
  intros Hown Hdict. unfold getFileExtensions. rewrite Hown, Hdict.
  unfold bind, emit, ret. by rewrite <- app_assoc.
Qed.

Lemma missing_suffix_is_reported_not_fatal_witness :
  let env := Fixture.prompting [] [] in
  let component :=
    {| oid := 1; fileName := "Thing"; outputdir := "things";
       type := "Unknown"; suffix := Some "" |} in
  getFileExtensions env component []
  = (Returned [".undefined-meta.xml"],
     [ShowErrorMessage "error_overwrite_prompt";
      SendException "OverwriteComponentPromptException"
        "Missing suffix for Unknown"]).
Proof.
  intros env component.
  exact (missing_suffix_is_reported_not_fatal env component [] eq_refl eq_refl).
Defined.

(** X6. When no candidate exists locally, that is, when [componentExists]
    answers false for every candidate because none of the paths looked up
    for it exists (whatever else is on disk), the overwrite checker returns
    its Continue input unchanged, one component or many, and shows no
    prompt. *)
Theorem overwrite_passes_when_nothing_exists (env : Collaborators)
    (data : OneOrMany) (w : World) :
  let componentsToCheck :=
    match data with Many components => components | One c => [c] end in
  (forall c h, c ∈ componentsToCheck ->
               fst (componentExists env c h) = Returned false) ->
  exists events,
    check (OverwriteComponentPrompt env) (CONTINUE data) w
      = (Returned (CONTINUE data), w ++ events)
    /\ existsb is_comparison_or_prompt events = false.
Proof.
  intros componentsToCheck Hnone.
  cbn [check OverwriteComponentPrompt]. unfold overwrite_check.
  fold componentsToCheck.
  destruct (filterA_none_exists env componentsToCheck w Hnone)
    as (events & Hfilter & Hquiet).
  exists events. by rewrite (bind_returned _ _ _ _ _ Hfilter).
Qed.

Lemma overwrite_passes_when_nothing_exists_witness :
  let env := Fixture.prompting [Some "Skip"]
               ["/ws/README.md"; Fixture.path_of "C"] in
  exists events,
    check (OverwriteComponentPrompt env)
          (CONTINUE (Many [Fixture.classA; Fixture.classB])) []
      = (Returned (CONTINUE (Many [Fixture.classA; Fixture.classB])),
         [] ++ events)
    /\ existsb is_comparison_or_prompt events = false.
Proof.
  intros env.
  refine (overwrite_passes_when_nothing_exists env
            (Many [Fixture.classA; Fixture.classB]) [] _).
  intros c h Hin.
  set_unfold. destruct Hin as [->|[->|[]]]; reflexivity.
Defined.

(** ** The overwrite prompt: dialogs *)

(** X7. Except for a batch of one item with nothing skipped yet, Skip is
    always offered right after Overwrite; the two "All" choices follow,
    counted with the number of items from the current one to the end,
    exactly when the current item is not the last one. *)
Theorem options_offered (env : Collaborators)
    (foundComponents : list LocalComponent) (skipped : gset LocalComponent)
    (currentIndex : nat) :
  length foundComponents <> 1 \/ skipped <> ∅ ->
  buildDialogOptions env foundComponents skipped currentIndex
  = [localize env "warning_prompt_overwrite" [];
     localize env "warning_prompt_skip" []]
    ++ (if bool_decide (currentIndex + 1 < length foundComponents) then
          let othersCount :=
            (Z.of_nat (length foundComponents) - Z.of_nat currentIndex)%Z in
          [counted (localize env "warning_prompt_overwrite_all" []) othersCount;
           counted (localize env "warning_prompt_skip_all" []) othersCount]
        else []).
Proof.
  intros Hbatch. unfold buildDialogOptions.
  assert (Hskip : bool_decide (0 < Z.of_nat (size skipped))%Z
                  || negb (bool_decide
                             (Z.of_nat (size skipped)
                              = Z.of_nat (length foundComponents) - 1)%Z)
                  = true).
  { destruct Hbatch as [Hlen | Hne].
    - apply orb_true_iff.
      destruct (decide (size skipped = 0)) as [Hz|Hnz].
      + right. apply negb_true_iff, bool_decide_eq_false_2. lia.
      + left. apply bool_decide_eq_true_2. lia.
    - apply orb_true_iff. left. apply bool_decide_eq_true_2.
      assert (size skipped <> 0); [|lia].
      intros Hz. apply size_empty_inv in Hz. apply Hne.
      by apply leibniz_equiv. }
  rewrite Hskip.
  destruct (decide (currentIndex + 1 < length foundComponents)).
  - by rewrite !bool_decide_eq_true_2 by lia.
  - by rewrite !bool_decide_eq_false_2 by lia.
Qed.

Lemma options_offered_witness :
  buildDialogOptions (Fixture.prompting [] [])
    [Fixture.classA; Fixture.classB; Fixture.classC] ∅ 2
  = ["Overwrite"; "Skip"].
Proof.
  assert (Hbatch : length [Fixture.classA; Fixture.classB; Fixture.classC] <> 1
                   \/ (∅ : gset LocalComponent) <> ∅)
    by (left; discriminate).
  pose proof (options_offered (Fixture.prompting [] [])
                [Fixture.classA; Fixture.classB; Fixture.classC] ∅ 2 Hbatch)
    as Hoptions.
  cbn [length] in Hoptions.
  rewrite bool_decide_eq_false_2 in Hoptions by lia.
  exact Hoptions.
Defined.

(** X8. When at most ten found items follow index [i], the body of the
    dialog message lists every one of them and has no summary line; the
    "other existing" part of the message is empty exactly when [i] is the
    last index. *)
Theorem dialog_message_lists_all_when_short (env : Collaborators)
    (foundComponents : list LocalComponent) (i : nat)
    (current : LocalComponent) (w : World) :
  let N := Z.of_nat (length foundComponents) in
  foundComponents !! i = Some current ->
  (N - Z.of_nat i - 1 <= 10)%Z ->
  buildDialogMessage env foundComponents i w
  = (Returned
       (localize env "warning_prompt_overwrite_message"
          [LStr (type current); LStr (fileName current);
           LStr (if bool_decide (i + 1 < length foundComponents)
                 then localize env "warning_prompt_other_existing"
                        [LNum (N - Z.of_nat i - 1)]
                 else "");
           LStr (listed (drop (i + 1) foundComponents))]),
     w).
Proof.
  intros N Hcur Hshort. subst N.
  unfold buildDialogMessage. rewrite Hcur.
  assert (dialogBody env foundComponents i
          = listed (drop (i + 1) foundComponents)) as ->.
  { unfold dialogBody.
    replace (i + 1) with (i + 1 + 0) at 1 by lia.
    rewrite dialogBody_loop_spec by lia.
    by rewrite bool_decide_eq_false_2 by (rewrite length_drop; lia). }
  do 2 case_bool_decide; try lia; done.
Qed.

Lemma dialog_message_lists_all_when_short_witness :
  buildDialogMessage (Fixture.prompting [] [])
    [Fixture.classA; Fixture.classB; Fixture.classC] 1 []
  = (Returned
       (Fixture.english "warning_prompt_overwrite_message"
          [LStr "ApexClass"; LStr "B";
           LStr "warning_prompt_other_existing|1";
           LStr (listed [Fixture.classC])]),
     []).
Proof.
  exact (dialog_message_lists_all_when_short (Fixture.prompting [] [])
           [Fixture.classA; Fixture.classB; Fixture.classC] 1 Fixture.classB []
           eq_refl ltac:(vm_compute; discriminate)).
Defined.

(** ** The batch decision procedure: every answer *)

Section LoopFacts.
Context (env : Collaborators).

Lemma drop_cons_inv {A} (l : list A) i x rest :
  drop i l = x :: rest -> l !! i = Some x /\ drop (S i) l = rest.
Proof.
  intros Hdrop.
  assert (Hx : l !! i = Some x).
  { rewrite <- (Nat.add_0_r i), <- lookup_drop. by rewrite Hdrop. }
  split; [done|]. rewrite (drop_S _ _ _ Hx) in Hdrop. by simplify_eq.
Qed.

(** One turn of the loop at an index that is in range: the modal is shown
    with the message and the options of that index, and the answer
    decides. *)
Lemma promptOverwrite_loop_cons foundComponents skipped i current rest w :
  foundComponents !! i = Some current ->
  exists message,
    buildDialogMessage env foundComponents i w = (Returned message, w)
    /\ promptOverwrite_loop env foundComponents skipped i (current :: rest) w
       = let options := buildDialogOptions env foundComponents skipped i in
         let choice := modalChoice env w message options in
         let w' := w ++ [ShowWarningModal message options] in
         let othersCount :=
           (Z.of_nat (length foundComponents) - Z.of_nat i)%Z in
         if bool_decide
              (choice = Some (localize env "warning_prompt_overwrite" [])) then
           promptOverwrite_loop env foundComponents skipped (S i) rest w'
         else if bool_decide
                   (choice = Some (localize env "warning_prompt_skip" [])) then
           promptOverwrite_loop env foundComponents ({[current]} ∪ skipped)
             (S i) rest w'
         else if bool_decide
                   (choice
                    = Some (counted
                              (localize env "warning_prompt_overwrite_all" [])
                              othersCount)) then
           (Returned (Some skipped), w')
         else if bool_decide
                   (choice
                    = Some (counted (localize env "warning_prompt_skip_all" [])
                              othersCount)) then
           (Returned (Some (list_to_set (current :: rest))), w')
         else (Returned None, w').
Proof.
  intros Hcur.
  assert (exists message,
            buildDialogMessage env foundComponents i w = (Returned message, w))
    as [message Hmsg]
    by (unfold buildDialogMessage; rewrite Hcur; eauto).
  exists message. split; [done|].
  cbn [promptOverwrite_loop]. rewrite (bind_returned _ _ _ _ _ Hmsg).
  unfold showWarningModal, call, bind at 1. cbv zeta.
  repeat case_bool_decide; reflexivity.
Qed.

Lemma promptOverwrite_loop_returns foundComponents :
  forall rest i skipped w,
    drop i foundComponents = rest ->
    exists decision prompts,
      promptOverwrite_loop env foundComponents skipped i rest w
        = (Returned decision, w ++ prompts)
      /\ forallb is_warning_modal prompts = true
      /\ length prompts <= length rest.
Proof.
  induction rest as [|current rest IH]; intros i skipped w Hdrop.
  - exists (Some skipped), []. by rewrite app_nil_r.
  - apply drop_cons_inv in Hdrop as [Hcur Hrest].
    destruct (promptOverwrite_loop_cons _ skipped _ _ rest w Hcur)
      as (message & _ & ->). cbv zeta.
    set (options := buildDialogOptions env foundComponents skipped i).
    repeat case_bool_decide.
    + destruct (IH (S i) skipped (w ++ [ShowWarningModal message options]) Hrest)
        as (decision & prompts & -> & Hmodal & Hlen).
      exists decision, (ShowWarningModal message options :: prompts).
      rewrite <- app_assoc. split; [done|]. split; [done | simpl; lia].
    + destruct (IH (S i) ({[current]} ∪ skipped)
                  (w ++ [ShowWarningModal message options]) Hrest)
        as (decision & prompts & -> & Hmodal & Hlen).
      exists decision, (ShowWarningModal message options :: prompts).
      rewrite <- app_assoc. split; [done|]. split; [done | simpl; lia].
    + eexists _, [_]. split; [done|]. split; [done | simpl; lia].
    + eexists _, [_]. split; [done|]. split; [done | simpl; lia].
    + eexists _, [_]. split; [done|]. split; [done | simpl; lia].
Qed.

Lemma promptOverwrite_loop_all_overwrite foundComponents :
  (forall h m o,
     modalChoice env h m o = Some (localize env "warning_prompt_overwrite" [])) ->
  forall rest i skipped w,
    drop i foundComponents = rest ->
    exists prompts,
      promptOverwrite_loop env foundComponents skipped i rest w
        = (Returned (Some skipped), w ++ prompts)
      /\ forallb is_warning_modal prompts = true
      /\ length prompts = length rest.
Proof.
  intros Hanswer.
  induction rest as [|current rest IH]; intros i skipped w Hdrop.
  - exists []. by rewrite app_nil_r.
  - apply drop_cons_inv in Hdrop as [Hcur Hrest].
    destruct (promptOverwrite_loop_cons _ skipped _ _ rest w Hcur)
      as (message & _ & ->). cbv zeta.
    set (options := buildDialogOptions env foundComponents skipped i).
    rewrite Hanswer. rewrite bool_decide_eq_true_2 by done.
    destruct (IH (S i) skipped (w ++ [ShowWarningModal message options]) Hrest)
      as (prompts & -> & Hmodal & Hlen).
    exists (ShowWarningModal message options :: prompts).
    rewrite <- app_assoc. split; [done|]. split; [done | simpl; lia].
Qed.

Lemma promptOverwrite_loop_all_skip foundComponents :
  localize env "warning_prompt_skip" []
    <> localize env "warning_prompt_overwrite" [] ->
  (forall h m o,
     modalChoice env h m o = Some (localize env "warning_prompt_skip" [])) ->
  forall rest i skipped w,
    drop i foundComponents = rest ->
    exists prompts,
      promptOverwrite_loop env foundComponents skipped i rest w
        = (Returned (Some (skipped ∪ list_to_set rest)), w ++ prompts)
      /\ length prompts = length rest.
Proof.
  intros Hlabels Hanswer.
  induction rest as [|current rest IH]; intros i skipped w Hdrop.
  - exists []. rewrite app_nil_r. split; [|done].
    cbn [promptOverwrite_loop list_to_set]. unfold ret.
    by rewrite (right_id_L ∅ (∪)).
  - apply drop_cons_inv in Hdrop as [Hcur Hrest].
    destruct (promptOverwrite_loop_cons _ skipped _ _ rest w Hcur)
      as (message & _ & ->). cbv zeta.
    set (options := buildDialogOptions env foundComponents skipped i).
    rewrite Hanswer.
    rewrite bool_decide_eq_false_2 by (intros [= ?]; done).
    rewrite bool_decide_eq_true_2 by done.
    destruct (IH (S i) ({[current]} ∪ skipped)
                (w ++ [ShowWarningModal message options]) Hrest)
      as (prompts & -> & Hlen).
    exists (ShowWarningModal message options :: prompts).
    rewrite <- app_assoc. split; [|simpl; lia].
    do 2 f_equal. f_equal.
    apply set_eq. intros x. rewrite list_to_set_cons. set_unfold. tauto.
Qed.
End LoopFacts.

(** X9. The batch decision procedure always returns: it never reads past
    the end of the found items, so that the [TypeError] of the message
    builder cannot occur.  Everything it does is show warning modals, at
    most one per found item. *)
Theorem promptOverwrite_returns_normally (env : Collaborators)
    (foundComponents : list LocalComponent) (w : World) :
  exists decision prompts,
    promptOverwrite env foundComponents w = (Returned decision, w ++ prompts)
    /\ forallb is_warning_modal prompts = true
    /\ length prompts <= length foundComponents.
Proof. by apply promptOverwrite_loop_returns. Qed.

(** X10. When Skip is answered to every prompt (and the labels of Skip and
    Overwrite differ), the procedure asks once per found item and returns
    the set of all found items. *)
Theorem skip_everything_skips_all (env : Collaborators)
    (foundComponents : list LocalComponent) (w : World) :
  localize env "warning_prompt_skip" []
    <> localize env "warning_prompt_overwrite" [] ->
  (forall h m o,
     modalChoice env h m o = Some (localize env "warning_prompt_skip" [])) ->
  exists prompts,
    promptOverwrite env foundComponents w
      = (Returned (Some (list_to_set foundComponents)), w ++ prompts)
    /\ length prompts = length foundComponents.
Proof.
  intros Hlabels Hanswer.
  destruct (promptOverwrite_loop_all_skip env foundComponents Hlabels Hanswer
              foundComponents 0 ∅ w eq_refl) as (prompts & Hrun & Hlen).
  exists prompts. split; [|done]. unfold promptOverwrite. rewrite Hrun.
  by rewrite (left_id_L ∅ (∪)).
Qed.

Lemma skip_everything_skips_all_witness :
  exists prompts,
    promptOverwrite (Fixture.answering (Some "Skip") (Fixture.prompting [] []))
      [Fixture.classA; Fixture.classB] []
      = (Returned (Some (list_to_set [Fixture.classA; Fixture.classB])),
         [] ++ prompts)
    /\ length prompts = 2.
Proof.
  refine (skip_everything_skips_all
            (Fixture.answering (Some "Skip") (Fixture.prompting [] []))
            [Fixture.classA; Fixture.classB] [] _ _).
  - discriminate.
  - intros h m o. reflexivity.
Defined.

(** X11. "Overwrite All" ends the procedure with what was decided so far:
    at any index [i], with any skip set accumulated, answering
    "Overwrite All (N - i)" (a label distinct from those of Overwrite and
    Skip) returns that skip set after this one prompt; no later item is
    asked about. *)
Theorem overwrite_all_keeps_earlier_decisions (env : Collaborators)
    (foundComponents rest : list LocalComponent) (current : LocalComponent)
    (skipped : gset LocalComponent) (i : nat) (w : World) :
  let answer :=
    counted (localize env "warning_prompt_overwrite_all" [])
      (Z.of_nat (length foundComponents) - Z.of_nat i) in
  drop i foundComponents = current :: rest ->
  (forall m o, modalChoice env w m o = Some answer) ->
  answer <> localize env "warning_prompt_overwrite" [] ->
  answer <> localize env "warning_prompt_skip" [] ->
  exists message,
    promptOverwrite_loop env foundComponents skipped i (current :: rest) w
    = (Returned (Some skipped),
       w ++ [ShowWarningModal message
               (buildDialogOptions env foundComponents skipped i)]).
Proof.
  intros answer Hdrop Hanswer Hov Hskip.
  apply drop_cons_inv in Hdrop as [Hcur _].
  destruct (promptOverwrite_loop_cons env _ skipped _ _ rest w Hcur)
    as (message & _ & ->). cbv zeta.
  exists message. rewrite Hanswer.
  rewrite bool_decide_eq_false_2 by (intros [= ?]; done).
  rewrite bool_decide_eq_false_2 by (intros [= ?]; done).
  by rewrite bool_decide_eq_true_2.
Qed.

Lemma overwrite_all_keeps_earlier_decisions_witness :
  let env := Fixture.prompting [Some "Skip"; Some "Overwrite All (2)"] [] in
  let found := [Fixture.classA; Fixture.classB; Fixture.classC] in
  let w := [ShowWarningModal "first" []] in
  exists message,
    promptOverwrite_loop env found {[Fixture.classA]} 1
      [Fixture.classB; Fixture.classC] w
    = (Returned (Some {[Fixture.classA]}),
       w ++ [ShowWarningModal message
               (buildDialogOptions env found {[Fixture.classA]} 1)]).
Proof.
  intros env found w.
  refine (overwrite_all_keeps_earlier_decisions env found [Fixture.classC]
            Fixture.classB {[Fixture.classA]} 1 w eq_refl _ _ _).
  - intros m o. reflexivity.
  - discriminate.
  - discriminate.
Defined.

(** X12. Any answer that is none of the four labels of the current index
    cancels the whole procedure: at any index, a dismissed modal, or a
    label that does not belong to this index (such as an "All" label with
    another count), makes the procedure return no decision after this one
    prompt, whatever was skipped before. *)
Theorem unrecognised_answer_cancels (env : Collaborators)
    (foundComponents rest : list LocalComponent) (current : LocalComponent)
    (skipped : gset LocalComponent) (i : nat) (w : World)
    (answer : option string) :
  let othersCount := (Z.of_nat (length foundComponents) - Z.of_nat i)%Z in
  drop i foundComponents = current :: rest ->
  (forall m o, modalChoice env w m o = answer) ->
  answer <> Some (localize env "warning_prompt_overwrite" []) ->
  answer <> Some (localize env "warning_prompt_skip" []) ->
  answer <> Some (counted (localize env "warning_prompt_overwrite_all" [])
                    othersCount) ->
  answer <> Some (counted (localize env "warning_prompt_skip_all" [])
                    othersCount) ->
  exists message,
    promptOverwrite_loop env foundComponents skipped i (current :: rest) w
    = (Returned None,
       w ++ [ShowWarningModal message
               (buildDialogOptions env foundComponents skipped i)]).
Proof.
  intros othersCount Hdrop Hanswer Hov Hskip Hovall Hskipall.
  apply drop_cons_inv in Hdrop as [Hcur _].
  destruct (promptOverwrite_loop_cons env _ skipped _ _ rest w Hcur)
    as (message & _ & ->). cbv zeta.
  exists message. rewrite Hanswer.
  by rewrite !bool_decide_eq_false_2.
Qed.

Lemma unrecognised_answer_cancels_witness :
  let env := Fixture.prompting [Some "Skip All (3)"] [] in
  let found := [Fixture.classA; Fixture.classB; Fixture.classC] in
  exists message,
    promptOverwrite_loop env found ∅ 1 [Fixture.classB; Fixture.classC] []
    = (Returned None,
       [] ++ [ShowWarningModal message (buildDialogOptions env found ∅ 1)]).
Proof.
  intros env found.
  refine (unrecognised_answer_cancels env found [Fixture.classC]
            Fixture.classB ∅ 1 [] (Some "Skip All (3)") eq_refl _ _ _ _ _).
  - intros m o. reflexivity.
  - discriminate.
  - discriminate.
  - discriminate.
  - discriminate.
Defined.

(** ** The overwrite checker: what it returns *)

Lemma filter_not_in_empty (S : gset LocalComponent) (l : list LocalComponent) :
  S = ∅ -> filter (fun selection => selection ∉ S) l = l.
Proof.
  intros ->. induction l as [|x l IH]; [done|].
  rewrite filter_cons_True by apply not_elem_of_empty. by rewrite IH.
Qed.

(** X13. When Overwrite is answered to every prompt, the overwrite checker
    returns its Continue input as it was given, one component or many,
    after exactly one prompt per locally existing component. *)
Theorem overwrite_everything_keeps_input (env : Collaborators)
    (data : OneOrMany) (found : list LocalComponent) (w w1 : World) :
  let componentsToCheck :=
    match data with Many components => components | One c => [c] end in
  (forall h m o,
     modalChoice env h m o = Some (localize env "warning_prompt_overwrite" [])) ->
  filterA (componentExists env) componentsToCheck w = (Returned found, w1) ->
  exists prompts,
    check (OverwriteComponentPrompt env) (CONTINUE data) w
      = (Returned (CONTINUE data), w1 ++ prompts)
    /\ forallb is_warning_modal prompts = true
    /\ length prompts = length found.
Proof.
  intros componentsToCheck Hanswer Hfound.
  cbn [check OverwriteComponentPrompt]. unfold overwrite_check.
  fold componentsToCheck. rewrite (bind_returned _ _ _ _ _ Hfound).
  case_bool_decide as Hsome.
  - destruct (promptOverwrite_loop_all_overwrite env found Hanswer
                found 0 ∅ w1 eq_refl) as (prompts & Hrun & Hmodal & Hlen).
    exists prompts. split; [|done].
    unfold promptOverwrite. rewrite (bind_returned _ _ _ _ _ Hrun).
    apply filterA_sublist, sublist_length in Hfound.
    rewrite bool_decide_eq_false_2 by (rewrite size_empty; lia).
    destruct data as [c|components]; [done|].
    subst componentsToCheck. unfold ret. by rewrite filter_not_in_empty.
  - exists []. rewrite app_nil_r. split; [done|]. split; [done|].
    destruct found; simpl in *; [done | lia].
Qed.

Lemma overwrite_everything_keeps_input_witness :
  let env := Fixture.answering (Some "Overwrite")
               (Fixture.prompting [] [Fixture.path_of "A"; Fixture.path_of "B"]) in
  let data := Many [Fixture.classA; Fixture.classB; Fixture.classC] in
  exists prompts,
    check (OverwriteComponentPrompt env) (CONTINUE data) []
      = (Returned (CONTINUE data), [] ++ prompts)
    /\ forallb is_warning_modal prompts = true
    /\ length prompts = 2.
Proof.
  intros env data.
  refine (overwrite_everything_keeps_input env data
            [Fixture.classA; Fixture.classB] [] [] _ eq_refl).
  intros h m o. reflexivity.
Defined.

(** X14. Narrowing never invents or loses a candidate that is not on
    disk: when the overwrite checker answers a list input with Continue,
    the list it returns is a sublist of the input list, in the same order,
    and it still holds every input candidate that was not found locally. *)
Theorem overwrite_narrowing_keeps_missing_files (env : Collaborators)
    (components narrowed found : list LocalComponent) (w w1 w' : World) :
  filterA (componentExists env) components w = (Returned found, w1) ->
  check (OverwriteComponentPrompt env) (CONTINUE (Many components)) w
    = (Returned (CONTINUE (Many narrowed)), w') ->
  narrowed `sublist_of` components
  /\ forall x, x ∈ components -> x ∉ found -> x ∈ narrowed.
Proof.
  intros Hfound Hrun.
  cbn [check OverwriteComponentPrompt] in Hrun. unfold overwrite_check in Hrun.
  rewrite (bind_returned _ _ _ _ _ Hfound) in Hrun.
  case_bool_decide as Hsome.
  - apply bind_inv in Hrun as ([S|] & w2 & Hprompt & Hrun);
      [|unfold ret in Hrun; simplify_eq].
    case_bool_decide as Hsize; unfold ret in Hrun; simplify_eq.
    split; [apply sublist_filter|].
    intros x Hx Hmissing. apply list_elem_of_filter. split; [|done].
    intros Hskipped. apply Hmissing.
    apply (promptOverwrite_subset _ _ _ _ _ Hprompt) in Hskipped.
    by apply elem_of_list_to_set in Hskipped.
  - unfold ret in Hrun. by simplify_eq.
Qed.

Lemma overwrite_narrowing_keeps_missing_files_witness :
  let env := Fixture.prompting [Some "Skip"; Some "Overwrite"]
               [Fixture.path_of "A"; Fixture.path_of "B"] in
  let components := [Fixture.classA; Fixture.classB; Fixture.classC] in
  [Fixture.classB; Fixture.classC] `sublist_of` components
  /\ forall x, x ∈ components -> x ∉ [Fixture.classA; Fixture.classB] ->
               x ∈ [Fixture.classB; Fixture.classC].
Proof.
  intros env components.
  exact (overwrite_narrowing_keeps_missing_files env components
           [Fixture.classB; Fixture.classC] [Fixture.classA; Fixture.classB]
           [] [] _ eq_refl eq_refl).
Defined.

(** X15. A single component is never narrowed: whenever the overwrite
    checker returns for an input that is one component (not a list), the
    answer is either a Cancel without message or the very input. *)
Theorem overwrite_single_is_kept_or_cancelled (env : Collaborators)
    (component : LocalComponent) (answer : Response OneOrMany)
    (w w' : World) :
  check (OverwriteComponentPrompt env) (CONTINUE (One component)) w
    = (Returned answer, w') ->
  answer = CANCEL None \/ answer = CONTINUE (One component).
Proof.
  cbn [check OverwriteComponentPrompt]. unfold overwrite_check. intros Hrun.
  apply bind_inv in Hrun as (found & w1 & _ & Hrun).
  case_bool_decide as Hsome.
  - apply bind_inv in Hrun as ([S|] & w2 & _ & Hrun).
    + case_bool_decide; unfold ret in Hrun; simplify_eq; auto.
    + unfold ret in Hrun; simplify_eq; auto.
  - unfold ret in Hrun; simplify_eq; auto.
Qed.

Lemma overwrite_single_is_kept_or_cancelled_witness :
  (CANCEL None : Response OneOrMany) = CANCEL None
  \/ CANCEL None = CONTINUE (One Fixture.classA).
Proof.
  exact (overwrite_single_is_kept_or_cancelled
           (Fixture.prompting [None] [Fixture.path_of "A"]) Fixture.classA
           (CANCEL None)
           []
           [ShowWarningModal
              (Fixture.english "warning_prompt_overwrite_message"
                 [LStr "ApexClass"; LStr "A"; LStr ""; LStr ""])
              ["Overwrite"]]
           eq_refl).
Defined.

(** X16. The message of an incoming Cancel is not kept by the overwrite
    checker, nor by the two conflict checkers when conflict detection is
    enabled: each answers a Cancel input with a Cancel without message and
    calls nothing. *)
Theorem cancel_input_loses_its_message (env : Collaborators)
    (messages : ConflictDetectionMessages) (isManifest : bool)
    (msg : option string) (w : World) :
  conflictDetectionEnabled env w = true ->
  check (OverwriteComponentPrompt env) (CANCEL msg) w
    = (Returned (CANCEL None), w)
  /\ check (ConflictDetectionChecker env messages) (CANCEL msg) w
     = (Returned (CANCEL None), w)
  /\ check (TimestampConflictChecker env isManifest messages) (CANCEL msg) w
     = (Returned (CANCEL None), w).
Proof.
  intros Hon. cbn [check OverwriteComponentPrompt ConflictDetectionChecker
                     TimestampConflictChecker].
  unfold conflict_check, timestamp_check, bind, read. by rewrite Hon.
Qed.

Lemma cancel_input_loses_its_message_witness :
  let env := Fixture.prompting [] [] in
  check (OverwriteComponentPrompt env) (CANCEL (Some "stop")) [Unlock]
    = (Returned (CANCEL None), [Unlock])
  /\ check (ConflictDetectionChecker env Fixture.messages)
       (CANCEL (Some "stop")) [Unlock]
     = (Returned (CANCEL None), [Unlock])
  /\ check (TimestampConflictChecker env true Fixture.messages)
       (CANCEL (Some "stop")) [Unlock]
     = (Returned (CANCEL None), [Unlock]).
Proof.
  intros env.
  exact (cancel_input_loses_its_message env Fixture.messages true
           (Some "stop") [Unlock] eq_refl).
Defined.

(** ** The conflict checkers: decisions and the deploy lock *)

Section ConflictFacts.
Context (env : Collaborators).

Lemma unlock_count_app (l1 l2 : list Event) :
  unlock_count (l1 ++ l2) = unlock_count l1 + unlock_count l2.
Proof. unfold unlock_count. by rewrite filter_app, length_app. Qed.

(** Listing the conflicting files only appends lines to the channel. *)
Lemma forEachA_appendLine (line : DiffFile -> string) :
  forall files w,
    forEachA (fun file => emit (AppendLine (line file))) files w
    = (Returned tt, w ++ map (fun file => AppendLine (line file)) files).
Proof.
  induction files as [|file files IH]; intros w; cbn [forEachA map].
  - by rewrite app_nil_r.
  - unfold bind, emit at 1. rewrite IH. by rewrite <- app_assoc.
Qed.

Lemma unlock_count_lines (line : DiffFile -> string) (files : list DiffFile) :
  unlock_count (map (fun file => AppendLine (line file)) files) = 0.
Proof. induction files as [|file files IH]; [done|]. exact IH. Qed.

(** [handleConflicts] of the manifest checker: it returns, Continue exactly
    when there is no difference or Override was picked, and it never
    unlocks. *)
Lemma conflict_handleConflicts_returns messages manifest usernameOrAlias
    results w :
  exists events,
    conflict_handleConflicts env messages manifest usernameOrAlias results w
    = (Returned
         (if bool_decide (different results = [])
             || bool_decide
                  (modalChoice env
                     (w ++ [AppendLine
                              (localize env "conflict_detect_conflict_header"
                                 [LNum (Z.of_nat (length (different results)));
                                  LNum (scannedRemote results);
                                  LNum (scannedLocal results)])]
                        ++ map (fun file =>
                                  AppendLine
                                    (normalize env
                                       (basename env (localRelPath file))))
                               (different results)
                        ++ [ShowChannelOutput])
                     (localize env (warningMessageKey messages) [])
                     [localize env "conflict_detect_override" [];
                      localize env "conflict_detect_show_conflicts" []]
                   = Some (localize env "conflict_detect_override" []))
          then CONTINUE manifest else CANCEL None),
       w ++ events)
    /\ unlock_count events = 0.
Proof.
  unfold conflict_handleConflicts.
  destruct (different results) as [|file files] eqn:Hdiff.
  { eexists [_]. split; [reflexivity | done]. }
  rewrite bool_decide_eq_false_2 by (simpl; lia).
  rewrite (bool_decide_eq_false_2 (_ :: _ = [])) by done.
  cbn [orb]. unfold bind at 1, emit at 1.
  unfold bind at 1. rewrite forEachA_appendLine.
  unfold bind at 1, emit at 1.
  unfold bind at 1, showWarningModal, call.
  rewrite <- !app_assoc.
  case_bool_decide as Hchoice.
  - eexists. unfold bind, emit, ret. rewrite <- !app_assoc.
    split; [reflexivity|].
    rewrite !unlock_count_app, unlock_count_lines. done.
  - eexists. unfold bind, emit, ret. rewrite <- !app_assoc.
    split; [reflexivity|].
    rewrite !unlock_count_app, unlock_count_lines. done.
Qed.

(** [handleConflicts] of the timestamp checker: it returns, and it unlocks
    the deploy queue once exactly when it cancels. *)
Lemma timestamp_handleConflicts_returns messages componentPath
    usernameOrAlias results w :
  exists answer events,
    timestamp_handleConflicts env messages componentPath usernameOrAlias
      results w
    = (Returned answer, w ++ events)
    /\ (answer = CONTINUE componentPath \/ answer = CANCEL None)
    /\ (different results = [] -> answer = CONTINUE componentPath)
    /\ unlock_count events
       = match answer with CONTINUE _ => 0 | CANCEL _ => 1 end.
Proof.
  unfold timestamp_handleConflicts.
  destruct (different results) as [|file files] eqn:Hdiff.
  { eexists _, [_]. split; [reflexivity|]. auto. }
  rewrite bool_decide_eq_false_2 by (simpl; lia).
  unfold bind at 1, emit at 1.
  unfold bind at 1. rewrite forEachA_appendLine.
  unfold bind at 1, showWarningModal, call.
  case_bool_decide as Hchoice.
  - eexists _, _. unfold bind, emit, ret. rewrite <- !app_assoc.
    split; [reflexivity|]. split; [auto|]. split; [done|].
    rewrite !unlock_count_app, unlock_count_lines. done.
  - eexists _, _. unfold bind, emit, ret. rewrite <- !app_assoc.
    split; [reflexivity|]. split; [auto|]. split; [done|].
    rewrite !unlock_count_app, unlock_count_lines. done.
Qed.
End ConflictFacts.

(** X17. Manifest checker without conflicts: with conflict detection
    enabled and a username in the workspace, when the comparison reports no
    difference the checker answers Continue with the manifest it was given;
    it has called the comparison once and then opened the conflict view
    without revealing it and without results, and it has shown no prompt
    and written nothing to the output channel. *)
Theorem manifest_without_differences_continues (env : Collaborators)
    (messages : ConflictDetectionMessages) (data user : string)
    (results : DirectoryDiffResults) (w : World) :
  let config := {| username := user; manifest := data |} in
  conflictDetectionEnabled env w = true ->
  nonempty (workspaceUsername env w) = Some user ->
  conflictsFound env w config = Returned results ->
  different results = [] ->
  check (ConflictDetectionChecker env messages) (CONTINUE data) w
  = (Returned (CONTINUE data),
     w ++ [CheckForConflicts config;
           VisualizeDifferences
             (localize env "conflict_detect_view_root" [LStr user; LNum 0])
             user false None]).
Proof.
  intros config Hon Huser Hfound Hnone.
  cbn [check ConflictDetectionChecker].
  unfold conflict_check, bind at 1, read at 1. rewrite Hon. cbn [negb].
  unfold bind at 1, read at 1. rewrite Huser.
  unfold bind at 1, checkForConflicts, call. fold config. rewrite Hfound.
  unfold conflict_handleConflicts. rewrite Hnone. cbn [length Z.of_nat].
  rewrite bool_decide_eq_true_2 by done.
  unfold bind, emit, ret. by rewrite <- app_assoc.
Qed.

Lemma manifest_without_differences_continues_witness :
  let env := Fixture.prompting [] [] in
  check (ConflictDetectionChecker env Fixture.messages)
        (CONTINUE "manifest/package.xml") []
  = (Returned (CONTINUE "manifest/package.xml"),
     [] ++ [CheckForConflicts {| username := "user@example.com";
                                 manifest := "manifest/package.xml" |};
            VisualizeDifferences
              "conflict_detect_view_root|user@example.com|0"
              "user@example.com" false None]).
Proof.
  intros env.
  exact (manifest_without_differences_continues env Fixture.messages
           "manifest/package.xml" "user@example.com" Fixture.noDiffs []
           eq_refl eq_refl eq_refl eq_refl).
Defined.

(** X18. The manifest checker does not catch: when the comparison rejects,
    the checker rejects with the same error right after that call; nothing
    is logged, no prompt is shown and the deploy queue is not unlocked. *)
Theorem manifest_comparison_failure_propagates (env : Collaborators)
    (messages : ConflictDetectionMessages) (data user : string)
    (error : JsError) (w : World) :
  let config := {| username := user; manifest := data |} in
  conflictDetectionEnabled env w = true ->
  nonempty (workspaceUsername env w) = Some user ->
  conflictsFound env w config = Thrown error ->
  check (ConflictDetectionChecker env messages) (CONTINUE data) w
  = (Thrown error, w ++ [CheckForConflicts config]).
Proof.
  intros config Hon Huser Hfound.
  cbn [check ConflictDetectionChecker].
  unfold conflict_check, bind at 1, read at 1. rewrite Hon. cbn [negb].
  unfold bind at 1, read at 1. rewrite Huser.
  unfold bind at 1, checkForConflicts, call. fold config. by rewrite Hfound.
Qed.

Lemma manifest_comparison_failure_propagates_witness :
  let env := Fixture.collaborators true (Some "user@example.com") [] []
               (Returned (CacheResult 0)) (Thrown (Error "Error: offline")) in
  check (ConflictDetectionChecker env Fixture.messages)
        (CONTINUE "manifest/package.xml") []
  = (Thrown (Error "Error: offline"),
     [] ++ [CheckForConflicts {| username := "user@example.com";
                                 manifest := "manifest/package.xml" |}]).
Proof.
  intros env.
  exact (manifest_comparison_failure_propagates env Fixture.messages
           "manifest/package.xml" "user@example.com" (Error "Error: offline")
           [] eq_refl eq_refl eq_refl).
Defined.

(** X19. Manifest checker with conflicts: with conflict detection enabled,
    a username in the workspace and a comparison that reports at least one
    difference, the checker answers Continue with the manifest when the
    user picks Override, and Cancel without message on any other answer,
    dismissal included. *)
Theorem manifest_with_differences_follows_the_answer (env : Collaborators)
    (messages : ConflictDetectionMessages) (data user : string)
    (results : DirectoryDiffResults) (answer : option string) (w : World) :
  let config := {| username := user; manifest := data |} in
  conflictDetectionEnabled env w = true ->
  nonempty (workspaceUsername env w) = Some user ->
  conflictsFound env w config = Returned results ->
  different results <> [] ->
  (forall h m o, modalChoice env h m o = answer) ->
  exists events,
    check (ConflictDetectionChecker env messages) (CONTINUE data) w
    = (Returned
         (if bool_decide
               (answer = Some (localize env "conflict_detect_override" []))
          then CONTINUE data else CANCEL None),
       w ++ events).
Proof.
  intros config Hon Huser Hfound Hsome Hanswer.
  cbn [check ConflictDetectionChecker].
  unfold conflict_check, bind at 1, read at 1. rewrite Hon. cbn [negb].
  unfold bind at 1, read at 1. rewrite Huser.
  unfold bind at 1, checkForConflicts, call. fold config. rewrite Hfound.
  destruct (conflict_handleConflicts_returns env messages data user results
              (w ++ [CheckForConflicts config])) as (events & -> & _).
  rewrite Hanswer, (bool_decide_eq_false_2 (different results = [])) by done.
  exists (CheckForConflicts config :: events).
  by rewrite <- app_assoc.
Qed.

Lemma manifest_with_differences_follows_the_answer_witness :
  let diffs := {| different := [{| localRelPath := "classes/A.cls" |}];
                  scannedRemote := 1; scannedLocal := 1 |} in
  let env := Fixture.answering (Some "conflict_detect_show_conflicts")
               (Fixture.collaborators true (Some "user@example.com") [] []
                  (Returned (CacheResult 0)) (Returned diffs)) in
  exists events,
    check (ConflictDetectionChecker env Fixture.messages)
          (CONTINUE "manifest/package.xml") []
    = (Returned (CANCEL None), [] ++ events).
Proof.
  intros diffs env.
  exact (manifest_with_differences_follows_the_answer env Fixture.messages
           "manifest/package.xml" "user@example.com" diffs
           (Some "conflict_detect_show_conflicts") []
           eq_refl eq_refl eq_refl ltac:(discriminate)
           (fun _ _ _ => eq_refl)).
Defined.

(** X20. The manifest checker never touches the deploy lock: whatever the
    input, the settings, the comparison and the user do, and whether the
    checker returns or rejects, there is no [unlock()] among its calls. *)
Theorem manifest_checker_never_unlocks (env : Collaborators)
    (messages : ConflictDetectionMessages) (inputs : Response string)
    (w : World) :
  exists outcome events,
    check (ConflictDetectionChecker env messages) inputs w
    = (outcome, w ++ events)
    /\ unlock_count events = 0.
Proof.
  cbn [check ConflictDetectionChecker].
  unfold conflict_check, bind at 1, read at 1.
  destruct (conflictDetectionEnabled env w); cbn [negb].
  2: { eexists _, []. by rewrite app_nil_r. }
  destruct inputs as [data|msg].
  2: { eexists _, []. by rewrite app_nil_r. }
  unfold bind at 1, read at 1.
  destruct (nonempty (workspaceUsername env w)) as [user|].
  2: { eexists _, []. by rewrite app_nil_r. }
  unfold bind at 1, checkForConflicts, call.
  destruct (conflictsFound env w _) as [results|error].
  2: { eexists _, [_]. done. }
  destruct (conflict_handleConflicts_returns env messages data user results
              (w ++ [CheckForConflicts {| username := user; manifest := data |}]))
    as (events & -> & Hquiet).
  eexists _, (CheckForConflicts _ :: events). split; [|exact Hquiet].
  f_equal. by rewrite <- app_assoc.
Qed.

(** X21. The timestamp checker rejects only through a caught value that
    cannot be rendered: as long as every value that the cache service and
    the diff builder throw has a [toString()] that returns, [check] returns
    a response, whatever the input, the settings and the user do. *)
Theorem timestamp_checker_always_returns (env : Collaborators)
    (messages : ConflictDetectionMessages) (isManifest : bool)
    (inputs : Response string) (w : World) :
  (forall h username path root manifest error,
     cacheLoaded env h username path root manifest = Thrown error ->
     exists rendered, toString error = Returned rendered) ->
  (forall result error,
     diffsCreated env result = Thrown error ->
     exists rendered, toString error = Returned rendered) ->
  exists answer w',
    check (TimestampConflictChecker env isManifest messages) inputs w
    = (Returned answer, w').
Proof.
  intros Hcache Hdiffs.
  cbn [check TimestampConflictChecker].
  unfold timestamp_check, bind at 1, read at 1.
  destruct (conflictDetectionEnabled env w); cbn [negb]; [|by eexists _, _].
  destruct inputs as [data|msg]; [|by eexists _, _].
  unfold bind at 1, emit at 1. unfold bind at 1, emit at 1.
  unfold bind at 1, read at 1.
  destruct (nonempty (workspaceUsername env _)) as [user|]; [|by eexists _, _].
  unfold try_catch, bind at 1, loadCache, call.
  destruct (cacheLoaded env _ _ _ _ _) as [result|error] eqn:Hload.
  2: { apply Hcache in Hload as [rendered Hrender].
       rewrite (timestamp_catch_printable _ _ _ _ Hrender). by eexists _, _. }
  unfold bind at 1, createDiffs, call.
  destruct (diffsCreated env result) as [diffs|error] eqn:Hdiff.
  2: { apply Hdiffs in Hdiff as [rendered Hrender].
       rewrite (timestamp_catch_printable _ _ _ _ Hrender). by eexists _, _. }
  unfold bind at 1, emit at 1.
  match goal with
  | |- context [timestamp_handleConflicts env messages data user diffs ?h] =>
      destruct (timestamp_handleConflicts_returns env messages data user diffs h)
        as (answer & events & -> & _)
  end.
  by eexists _, _.
Qed.

Lemma timestamp_checker_always_returns_witness :
  let env := Fixture.collaborators true (Some "user@example.com") [] []
               (Thrown (Error "Error: connection refused"))
               (Thrown (Error "Error: bad cache")) in
  exists answer w',
    check (TimestampConflictChecker env true Fixture.messages)
          (CONTINUE "manifest/package.xml") []
    = (Returned answer, w').
Proof.
  intros env.
  refine (timestamp_checker_always_returns env Fixture.messages true
            (CONTINUE "manifest/package.xml") [] _ _).
  - intros h username path root manifest error [= <-]. by eexists.
  - intros result error [= <-]. by eexists.
Defined.

(** X22. Lock discipline of the timestamp checker: with conflict detection
    enabled, a Continue input and a username in the workspace, and as long
    as every value that the cache service and the diff builder throw has a
    [toString()] that returns, the checker returns, it unlocks the deploy
    queue exactly once when it answers Cancel and not at all when it
    answers Continue, and it answers Continue with the path it was
    given. *)
Theorem timestamp_unlocks_exactly_when_cancelling (env : Collaborators)
    (messages : ConflictDetectionMessages) (isManifest : bool)
    (data user : string) (w : World) :
  conflictDetectionEnabled env w = true ->
  nonempty (workspaceUsername env (w ++ timestamp_announcement env))
    = Some user ->
  (forall h username path root manifest error,
     cacheLoaded env h username path root manifest = Thrown error ->
     exists rendered, toString error = Returned rendered) ->
  (forall result error,
     diffsCreated env result = Thrown error ->
     exists rendered, toString error = Returned rendered) ->
  exists answer events,
    check (TimestampConflictChecker env isManifest messages) (CONTINUE data) w
    = (Returned answer, w ++ events)
    /\ (answer = CONTINUE data \/ answer = CANCEL None)
    /\ unlock_count events
       = match answer with CONTINUE _ => 0 | CANCEL _ => 1 end.
Proof.
  intros Hon Huser Hcache Hdiffs.
  cbn [check TimestampConflictChecker].
  unfold timestamp_check, bind at 1, read at 1. rewrite Hon. cbn [negb].
  unfold bind at 1, emit at 1. unfold bind at 1, emit at 1.
  unfold bind at 1, read at 1. rewrite <- app_assoc.
  change ([ShowChannelOutput] ++ _) with (timestamp_announcement env).
  rewrite Huser.
  unfold try_catch, bind at 1, loadCache, call.
  destruct (cacheLoaded env _ _ _ _ _) as [result|error] eqn:Hload.
  2: { apply Hcache in Hload as [rendered Hrender].
       rewrite (timestamp_catch_printable _ _ _ _ Hrender).
       eexists _, _. rewrite <- !app_assoc.
       split; [reflexivity|]. split; [by right|].
       by rewrite !unlock_count_app. }
  unfold bind at 1, createDiffs, call.
  destruct (diffsCreated env result) as [diffs|error] eqn:Hdiff.
  2: { apply Hdiffs in Hdiff as [rendered Hrender].
       rewrite (timestamp_catch_printable _ _ _ _ Hrender).
       eexists _, _. rewrite <- !app_assoc.
       split; [reflexivity|]. split; [by right|].
       by rewrite !unlock_count_app. }
  unfold bind at 1, emit at 1.
  match goal with
  | |- context [timestamp_handleConflicts env messages data user diffs ?h] =>
      destruct (timestamp_handleConflicts_returns env messages data user diffs h)
        as (answer & events & -> & Hanswer & _ & Hcount)
  end.
  eexists _, _. rewrite <- !app_assoc. split; [reflexivity|].
  split; [done|]. rewrite !unlock_count_app, Hcount.
  by destruct answer.
Qed.

Lemma timestamp_unlocks_exactly_when_cancelling_witness :
  let diffs := {| different := [{| localRelPath := "classes/A.cls" |}];
                  scannedRemote := 1; scannedLocal := 1 |} in
  let env := Fixture.collaborators true (Some "user@example.com")
               [None] [] (Returned (CacheResult 0)) (Returned diffs) in
  exists answer events,
    check (TimestampConflictChecker env false Fixture.messages)
          (CONTINUE "force-app/main") []
    = (Returned answer, [] ++ events)
    /\ (answer = CONTINUE "force-app/main" \/ answer = CANCEL None)
    /\ unlock_count events
       = match answer with CONTINUE _ => 0 | CANCEL _ => 1 end.
Proof.
  intros diffs env.
  refine (timestamp_unlocks_exactly_when_cancelling env Fixture.messages false
            "force-app/main" "user@example.com" [] eq_refl eq_refl _ _).
  - intros h username path root manifest error [=].
  - intros result error [=].
Defined.

(** X30. With conflict detection enabled, a Continue input and a username
    in the workspace, when loading the cache or building the diffs throws a
    value whose [toString()] returns, the timestamp checker logs the
    rendering, answers with a Cancel that carries no message, and there is
    exactly one [unlock()] of the deploy queue among its calls. *)
Theorem timestamp_printable_failure_unlocks_once (env : Collaborators)
    (messages : ConflictDetectionMessages) (isManifest : bool)
    (data user rendered : string) (w : World) (error : JsError) :
  let started := w ++ timestamp_announcement env in
  let loaded :=
    cacheLoaded env started user data (getRootWorkspacePath env) isManifest in
  conflictDetectionEnabled env w = true ->
  nonempty (workspaceUsername env started) = Some user ->
  toString error = Returned rendered ->
  (loaded = Thrown error
   \/ exists result,
        loaded = Returned result /\ diffsCreated env result = Thrown error) ->
  exists events,
    check (TimestampConflictChecker env isManifest messages) (CONTINUE data) w
      = (Returned (CANCEL None), w ++ events)
    /\ unlock_count events = 1
    /\ AppendLine (localize env "conflict_detect_error" [LStr rendered])
       ∈ events.
Proof.
  intros started loaded Hon Huser Hrender Hfail.
  pose (errorMsg := localize env "conflict_detect_error" [LStr rendered]).
  pose (report := [ConsoleError error; AppendLine errorMsg;
                   SendException "ConflictDetectionException" errorMsg; Unlock]).
  assert (Hstart :
            check (TimestampConflictChecker env isManifest messages)
                  (CONTINUE data) w
            = try_catch
                (let* result :=
                   loadCache env user data (getRootWorkspacePath env) isManifest in
                 let* diffs := createDiffs env result in
                 emit (ShowCommandWithTimestamp
                         (localize env "channel_end" [] +:+ " "
                          +:+ localize env "conflict_detect_execution_name" []
                          +:+ LF)) ;;
                 timestamp_handleConflicts env messages data user diffs)
                (timestamp_catch env)
                started).
  { cbn [check TimestampConflictChecker].
    unfold timestamp_check, bind at 1, read at 1.
    rewrite Hon. cbn [negb]. unfold bind at 1, emit at 1.
    unfold bind at 1, emit at 1. unfold bind at 1, read at 1.
    rewrite <- app_assoc.
    change ([ShowChannelOutput] ++ _) with (timestamp_announcement env).
    fold started. by rewrite Huser. }
  rewrite Hstart. clear Hstart.
  destruct Hfail as [Hload | (result & Hload & Hdiff)].
  - exists (timestamp_announcement env
            ++ [LoadCache user data (getRootWorkspacePath env) isManifest]
            ++ report).
    split; [|split; [done|]].
    + unfold try_catch, bind at 1, loadCache, call. fold loaded. rewrite Hload.
      rewrite (timestamp_catch_printable _ _ _ _ Hrender).
      unfold started. by rewrite <- !app_assoc.
    + rewrite !elem_of_app. right. right. subst report.
      apply list_elem_of_further, list_elem_of_here.
  - exists (timestamp_announcement env
            ++ [LoadCache user data (getRootWorkspacePath env) isManifest;
                CreateDiffs result]
            ++ report).
    split; [|split; [done|]].
    + unfold try_catch, bind at 1, loadCache, call. fold loaded. rewrite Hload.
      unfold bind at 1, createDiffs, call. rewrite Hdiff.
      rewrite (timestamp_catch_printable _ _ _ _ Hrender).
      unfold started. by rewrite <- !app_assoc.
    + rewrite !elem_of_app. right. right. subst report.
      apply list_elem_of_further, list_elem_of_here.
Qed.

Lemma timestamp_printable_failure_unlocks_once_witness :
  let env := Fixture.collaborators true (Some "user@example.com") [] []
               (Thrown (Error "Error: connection refused"))
               (Returned Fixture.noDiffs) in
  exists events,
    check (TimestampConflictChecker env false Fixture.messages)
          (CONTINUE "force-app/main") []
      = (Returned (CANCEL None), [] ++ events)
    /\ unlock_count events = 1
    /\ AppendLine "conflict_detect_error|Error: connection refused" ∈ events.
Proof.
  intros env.
  exact (timestamp_printable_failure_unlocks_once env Fixture.messages false
           "force-app/main" "user@example.com" "Error: connection refused" []
           (Error "Error: connection refused")
           eq_refl eq_refl eq_refl (or_introl eq_refl)).
Defined.

(** ** The authorization parameter gatherers *)

Section AuthFacts.
Import AuthParams.

Lemma prefix_iff (needle s : string) :
  String.prefix needle s = true <-> exists post, s = needle +:+ post.
Proof.
  revert s. induction needle as [|a needle IH]; intros s.
  - split; [intros _; by exists s | by destruct s].
  - destruct s as [|b s]; simpl.
    + split; [done | by intros [post [=]]].
    + destruct (Ascii.ascii_dec a b) as [->|Hne].
      * rewrite IH. split.
        -- intros [post ->]. by exists post.
        -- intros [post Heq]. exists post.
           change (String b s = String b (needle +:+ post)) in Heq.
           by simplify_eq.
      * split; [done|]. intros [post Heq].
        change (String b s = String a (needle +:+ post)) in Heq.
        by simplify_eq.
Qed.

Lemma includes_iff (needle s : string) :
  includes needle s = true
  <-> exists pre post, s = pre +:+ needle +:+ post.
Proof.
  induction s as [|b s IH]; cbn [includes]; rewrite orb_true_iff, prefix_iff.
  - split.
    + intros [[post Heq]|?]; [|done]. by exists "", post.
    + intros (pre & post & Heq). left.
      destruct pre; [by exists post|done].
  - rewrite IH. split.
    + intros [[post Heq]|(pre & post & ->)].
      * by exists "", post.
      * by exists (String b pre), post.
    + intros (pre & post & Heq). destruct pre as [|c pre].
      * left. by exists post.
      * right. exists pre, post.
        change (String b s = String c (pre +:+ needle +:+ post)) in Heq.
        by simplify_eq.
Qed.

Lemma or_else_nonempty (x : option string) (fallback : string) :
  fallback <> "" -> or_else x fallback <> "".
Proof.
  intros Hfallback. unfold or_else, nonempty.
  destruct x as [s|]; [|done].
  destruct (String.eqb s "") eqn:Hs; [done|].
  simpl. intros ->. by rewrite String.eqb_refl in Hs.
Qed.

Lemma gather_alias_inv (ui : Ui) url w params w' :
  gather_alias ui url w = (Returned (CONTINUE params), w') ->
  alias params <> "" /\ loginUrl params <> "".
Proof.
  unfold gather_alias, bind, showInputBox.
  destruct (entered ui w (alias_options ui)) as [a|]; unfold ret;
    intros Hrun; simplify_eq.
  split; by apply or_else_nonempty.
Qed.
End AuthFacts.

(** X23. The URL validation accepts a text exactly when [http://] or
    [https://] occurs somewhere in it: the scheme need not be at the
    start, nothing need follow it, and capital letters do not count. *)
Theorem validateUrl_accepts_iff_scheme_occurs (ui : AuthParams.Ui)
    (url : string) :
  AuthParams.validateUrl ui url = None
  <-> exists pre post,
        url = pre +:+ "http://" +:+ post \/ url = pre +:+ "https://" +:+ post.
Proof.
  unfold AuthParams.validateUrl, AuthParams.matches_url_expr.
  destruct (AuthParams.includes "http://" url) eqn:Hhttp;
    [|destruct (AuthParams.includes "https://" url) eqn:Hhttps]; cbn [orb].
  - split; [intros _|done].
    apply includes_iff in Hhttp as (pre & post & ->). eauto.
  - split; [intros _|done].
    apply includes_iff in Hhttps as (pre & post & ->). eauto.
  - split; [done|]. intros (pre & post & [Heq|Heq]).
    + assert (AuthParams.includes "http://" url = true)
        by (apply includes_iff; eauto). congruence.
    + assert (AuthParams.includes "https://" url = true)
        by (apply includes_iff; eauto). congruence.
Qed.

(** X24. Whenever the login gatherer answers Continue, neither the alias
    nor the login URL it returns is empty: an empty alias is replaced by
    [vscodeOrg], a missing or empty login URL by the production URL. *)
Theorem gather_never_returns_empty_fields (ui : AuthParams.Ui)
    (params : AuthParams.AuthParams) (w w' : AuthParams.UiWorld) :
  AuthParams.gather ui w = (Returned (CONTINUE params), w') ->
  AuthParams.alias params <> "" /\ AuthParams.loginUrl params <> "".
Proof.
  unfold AuthParams.gather. intros Hrun.
  apply bind_inv in Hrun as (items & w1 & _ & Hrun).
  apply bind_inv in Hrun as ([selection|] & w2 & _ & Hrun); [|done].
  repeat case_bool_decide.
  - apply bind_inv in Hrun as ([url|] & w3 & _ & Hrun); [|done].
    by apply gather_alias_inv in Hrun.
  - apply bind_inv in Hrun as (url & w3 & _ & Hrun).
    by apply gather_alias_inv in Hrun.
  - by apply gather_alias_inv in Hrun.
  - by apply gather_alias_inv in Hrun.
Qed.

Lemma gather_never_returns_empty_fields_witness :
  AuthParams.alias {| AuthParams.alias := "vscodeOrg";
                      AuthParams.loginUrl := "https://login.salesforce.com" |}
    <> ""
  /\ AuthParams.loginUrl
       {| AuthParams.alias := "vscodeOrg";
          AuthParams.loginUrl := "https://login.salesforce.com" |} <> "".
Proof.
  exact (gather_never_returns_empty_fields
           (AuthParams.english_ui (Some "") (Some "Production") [Some ""])
           {| AuthParams.alias := "vscodeOrg";
              AuthParams.loginUrl := "https://login.salesforce.com" |}
           [] _ eq_refl).
Defined.

(** X25. When the user dismisses the quick pick of org types, the login
    gatherer answers Cancel without message and shows no input box: it has
    only read the project login URL and shown the quick pick. *)
Theorem gather_cancels_when_pick_dismissed (ui : AuthParams.Ui)
    (projectUrl : option string) (w : AuthParams.UiWorld) :
  AuthParams.configValue ui w "sfdcLoginUrl" = Returned projectUrl ->
  (forall items,
     AuthParams.picked ui (w ++ [AuthParams.GetValue "sfdcLoginUrl"]) items
     = None) ->
  exists items,
    AuthParams.gather ui w
    = (Returned (CANCEL None),
       w ++ [AuthParams.GetValue "sfdcLoginUrl";
             AuthParams.ShowQuickPick items]).
Proof.
  intros Hconfig Hpick.
  unfold AuthParams.gather, AuthParams.getQuickPickItems,
    AuthParams.getProjectLoginUrl, AuthParams.getValue, bind at 1, bind at 1.
  rewrite Hconfig.
  destruct (nonempty projectUrl); unfold ret, bind, AuthParams.showQuickPick;
    rewrite Hpick; eexists; by rewrite <- app_assoc.
Qed.

Lemma gather_cancels_when_pick_dismissed_witness :
  exists items,
    AuthParams.gather
      (AuthParams.english_ui (Some "https://my.example.com") None []) []
    = (Returned (CANCEL None),
       [] ++ [AuthParams.GetValue "sfdcLoginUrl";
              AuthParams.ShowQuickPick items]).
Proof.
  exact (gather_cancels_when_pick_dismissed
           (AuthParams.english_ui (Some "https://my.example.com") None [])
           (Some "https://my.example.com") [] eq_refl (fun _ => eq_refl)).
Defined.

(** X26. For a picked item that is neither the custom nor the project
    item, the login URL is the sandbox URL exactly when the label of the
    item is the word [Sandbox], whatever the localized label of the sandbox
    item is, and the production URL otherwise; the alias is the text
    entered, or [vscodeOrg] when it is empty. *)
Theorem gather_login_url_of_fixed_org_types (ui : AuthParams.Ui)
    (projectUrl : option string) (selection : AuthParams.QuickPickItem)
    (entered : string) (w : AuthParams.UiWorld) :
  AuthParams.configValue ui w "sfdcLoginUrl" = Returned projectUrl ->
  (forall h items, AuthParams.picked ui h items = Some selection) ->
  (forall h, AuthParams.entered ui h (AuthParams.alias_options ui)
             = Some entered) ->
  AuthParams.label selection
    <> AuthParams.label (AuthParams.orgTypes_custom ui) ->
  AuthParams.label selection
    <> AuthParams.label (AuthParams.orgTypes_project ui) ->
  exists w',
    AuthParams.gather ui w
    = (Returned
         (CONTINUE
            {| AuthParams.alias :=
                 if String.eqb entered "" then AuthParams.DEFAULT_ALIAS
                 else entered;
               AuthParams.loginUrl :=
                 if bool_decide (AuthParams.label selection = "Sandbox")
                 then AuthParams.SANDBOX_URL
                 else AuthParams.PRODUCTION_URL |}),
       w').
Proof.
  intros Hconfig Hpick Halias Hcustom Hproject.
  unfold AuthParams.gather, AuthParams.getQuickPickItems,
    AuthParams.getProjectLoginUrl, AuthParams.getValue, bind at 1, bind at 1.
  rewrite Hconfig.
  assert (Htail : forall items h,
            (let* selection := AuthParams.showQuickPick ui items in
             match selection with
             | None => ret (CANCEL None)
             | Some selection =>
                 let orgType := AuthParams.label selection in
                 if bool_decide
                      (orgType
                       = AuthParams.label (AuthParams.orgTypes_custom ui)) then
                   let* loginUrl :=
                     AuthParams.showInputBox ui
                       (AuthParams.customUrl_options ui) in
                   match loginUrl with
                   | None => ret (CANCEL None)
                   | Some _ => AuthParams.gather_alias ui loginUrl
                   end
                 else if bool_decide
                           (orgType
                            = AuthParams.label
                                (AuthParams.orgTypes_project ui)) then
                   let* loginUrl := AuthParams.getValue ui "sfdcLoginUrl" in
                   AuthParams.gather_alias ui loginUrl
                 else
                   AuthParams.gather_alias ui
                     (Some (if bool_decide (orgType = "Sandbox")
                            then AuthParams.SANDBOX_URL
                            else AuthParams.PRODUCTION_URL))
             end) h
            = (Returned
                 (CONTINUE
                    {| AuthParams.alias :=
                         if String.eqb entered "" then AuthParams.DEFAULT_ALIAS
                         else entered;
                       AuthParams.loginUrl :=
                         if bool_decide (AuthParams.label selection = "Sandbox")
                         then AuthParams.SANDBOX_URL
                         else AuthParams.PRODUCTION_URL |}),
               (h ++ [AuthParams.ShowQuickPick items])
               ++ [AuthParams.ShowInputBox (AuthParams.alias_options ui)])).
  { intros items h. unfold bind at 1, AuthParams.showQuickPick.
    rewrite Hpick. cbv zeta.
    rewrite !bool_decide_eq_false_2 by done.
    unfold AuthParams.gather_alias, bind, AuthParams.showInputBox.
    rewrite Halias. unfold ret, AuthParams.or_else, nonempty.
    destruct (String.eqb entered ""); by case_bool_decide. }
  destruct (nonempty projectUrl); unfold ret; rewrite Htail; eauto.
Qed.

Lemma gather_login_url_of_fixed_org_types_witness :
  let sandbox :=
    {| AuthParams.label := "Sandbox";
       AuthParams.detail := "auth_sandbox_detail" |} in
  let ui :=
    {| AuthParams.localizeKey :=
         AuthParams.localizeKey (AuthParams.english_ui None None []);
       AuthParams.configValue := fun _ _ => Returned None;
       AuthParams.picked := fun _ _ => Some sandbox;
       AuthParams.entered := fun _ _ => Some "" |} in
  exists w',
    AuthParams.gather ui []
    = (Returned
         (CONTINUE {| AuthParams.alias := "vscodeOrg";
                      AuthParams.loginUrl := "https://test.salesforce.com" |}),
       w').
Proof.
  intros sandbox ui.
  exact (gather_login_url_of_fixed_org_types ui None sandbox "" []
           eq_refl (fun _ _ => eq_refl) (fun _ => eq_refl)
           ltac:(discriminate) ltac:(discriminate)).
Defined.

(** X27. When reading the project login URL rejects, the login gatherer
    rejects with the same error before showing anything to the user. *)
Theorem gather_config_failure_propagates (ui : AuthParams.Ui)
    (error : JsError) (w : AuthParams.UiWorld) :
  AuthParams.configValue ui w "sfdcLoginUrl" = Thrown error ->
  AuthParams.gather ui w
  = (Thrown error, w ++ [AuthParams.GetValue "sfdcLoginUrl"]).
Proof.
  intros Hconfig.
  unfold AuthParams.gather, AuthParams.getQuickPickItems,
    AuthParams.getProjectLoginUrl, AuthParams.getValue, bind at 1, bind at 1.
  by rewrite Hconfig.
Qed.

Lemma gather_config_failure_propagates_witness :
  let ui :=
    {| AuthParams.localizeKey := fun key => key;
       AuthParams.configValue := fun _ _ => Thrown (Error "Error: no project");
       AuthParams.picked := fun _ _ => None;
       AuthParams.entered := fun _ _ => None |} in
  AuthParams.gather ui []
  = (Thrown (Error "Error: no project"),
     [] ++ [AuthParams.GetValue "sfdcLoginUrl"]).
Proof.
  intros ui.
  exact (gather_config_failure_propagates ui (Error "Error: no project") []
           eq_refl).
Defined.

(** X28. The access-token gatherer asks for the instance URL, the alias
    and the access token, in that order, and stops at the first input box
    that is dismissed, answering Cancel without message; when all three are
    entered it answers Continue with the three texts exactly as entered (an
    empty alias stays empty). *)
Theorem access_token_gather_follows_the_inputs (ui : AuthParams.Ui)
    (url alias token : option string) (w : AuthParams.UiWorld) :
  (forall h, AuthParams.entered ui h (AuthParams.inputInstanceUrl_options ui)
             = url) ->
  (forall h, AuthParams.entered ui h (AuthParams.alias_options ui) = alias) ->
  (forall h, AuthParams.entered ui h AuthParams.accessToken_options
             = token) ->
  AuthParams.gatherAccessToken ui w
  = match url, alias, token with
    | Some url', Some alias', Some token' =>
        (Returned
           (CONTINUE {| AuthParams.accessToken := token';
                        AuthParams.tokenAlias := alias';
                        AuthParams.instanceUrl := url' |}),
         w ++ [AuthParams.ShowInputBox (AuthParams.inputInstanceUrl_options ui);
               AuthParams.ShowInputBox (AuthParams.alias_options ui);
               AuthParams.ShowInputBox AuthParams.accessToken_options])
    | Some _, Some _, None =>
        (Returned (CANCEL None),
         w ++ [AuthParams.ShowInputBox (AuthParams.inputInstanceUrl_options ui);
               AuthParams.ShowInputBox (AuthParams.alias_options ui);
               AuthParams.ShowInputBox AuthParams.accessToken_options])
    | Some _, None, _ =>
        (Returned (CANCEL None),
         w ++ [AuthParams.ShowInputBox (AuthParams.inputInstanceUrl_options ui);
               AuthParams.ShowInputBox (AuthParams.alias_options ui)])
    | None, _, _ =>
        (Returned (CANCEL None),
         w ++ [AuthParams.ShowInputBox (AuthParams.inputInstanceUrl_options ui)])
    end.
Proof.
  intros Hurl Halias Htoken.
  unfold AuthParams.gatherAccessToken, AuthParams.inputInstanceUrl,
    AuthParams.inputAlias, AuthParams.inputAccessToken,
    AuthParams.showInputBox, bind at 1.
  rewrite Hurl. destruct url as [url'|]; [|done].
  unfold bind at 1. rewrite Halias. destruct alias as [alias'|].
  2: { unfold ret. by rewrite <- app_assoc. }
  unfold bind at 1. rewrite Htoken. unfold ret. rewrite <- !app_assoc.
  by destruct token.
Qed.

Lemma access_token_gather_follows_the_inputs_witness :
  let ui :=
    {| AuthParams.localizeKey := fun key => key;
       AuthParams.configValue := fun _ _ => Returned None;
       AuthParams.picked := fun _ _ => None;
       AuthParams.entered := fun _ options =>
         if AuthParams.password options then Some "00Dxx!token"
         else if bool_decide (AuthParams.placeHolder options
                              = Some AuthParams.DEFAULT_ALIAS) then Some ""
         else Some "https://na35.salesforce.com" |} in
  AuthParams.gatherAccessToken ui []
  = (Returned
       (CONTINUE {| AuthParams.accessToken := "00Dxx!token";
                    AuthParams.tokenAlias := "";
                    AuthParams.instanceUrl := "https://na35.salesforce.com" |}),
     [] ++ [AuthParams.ShowInputBox (AuthParams.inputInstanceUrl_options ui);
            AuthParams.ShowInputBox (AuthParams.alias_options ui);
            AuthParams.ShowInputBox AuthParams.accessToken_options]).
Proof.
  intros ui.
  exact (access_token_gather_follows_the_inputs ui
           (Some "https://na35.salesforce.com") (Some "") (Some "00Dxx!token")
           [] (fun _ => eq_refl) (fun _ => eq_refl) (fun _ => eq_refl)).
Defined.

(** X29. With the custom item picked, the login gatherer asks for the
    URL and then for the alias: dismissing the URL box cancels without the
    alias box being shown, dismissing the alias box cancels, and otherwise
    the answer is Continue with the URL entered (the production URL if it
    is empty) and the alias entered ([vscodeOrg] if it is empty). *)
Theorem gather_custom_org_follows_the_inputs (ui : AuthParams.Ui)
    (projectUrl url alias : option string)
    (selection : AuthParams.QuickPickItem) (w : AuthParams.UiWorld) :
  AuthParams.configValue ui w "sfdcLoginUrl" = Returned projectUrl ->
  (forall h items, AuthParams.picked ui h items = Some selection) ->
  AuthParams.label selection
    = AuthParams.label (AuthParams.orgTypes_custom ui) ->
  (forall h, AuthParams.entered ui h (AuthParams.customUrl_options ui) = url) ->
  (forall h, AuthParams.entered ui h (AuthParams.alias_options ui) = alias) ->
  exists items,
    AuthParams.gather ui w
    = (Returned
         match url, alias with
         | Some url', Some alias' =>
             CONTINUE
               {| AuthParams.alias :=
                    if String.eqb alias' "" then AuthParams.DEFAULT_ALIAS
                    else alias';
                  AuthParams.loginUrl :=
                    if String.eqb url' "" then AuthParams.PRODUCTION_URL
                    else url' |}
         | _, _ => CANCEL None
         end,
       w ++ [AuthParams.GetValue "sfdcLoginUrl";
             AuthParams.ShowQuickPick items;
             AuthParams.ShowInputBox (AuthParams.customUrl_options ui)]
         ++ match url with
            | Some _ => [AuthParams.ShowInputBox (AuthParams.alias_options ui)]
            | None => []
            end).
Proof.
  intros Hconfig Hpick Hcustom Hurl Halias.
  assert (Htail : forall items h,
            (let* selection := AuthParams.showQuickPick ui items in
             match selection with
             | None => ret (CANCEL None)
             | Some selection =>
                 let orgType := AuthParams.label selection in
                 if bool_decide
                      (orgType
                       = AuthParams.label (AuthParams.orgTypes_custom ui)) then
                   let* loginUrl :=
                     AuthParams.showInputBox ui
                       (AuthParams.customUrl_options ui) in
                   match loginUrl with
                   | None => ret (CANCEL None)
                   | Some _ => AuthParams.gather_alias ui loginUrl
                   end
                 else if bool_decide
                           (orgType
                            = AuthParams.label
                                (AuthParams.orgTypes_project ui)) then
                   let* loginUrl := AuthParams.getValue ui "sfdcLoginUrl" in
                   AuthParams.gather_alias ui loginUrl
                 else
                   AuthParams.gather_alias ui
                     (Some (if bool_decide (orgType = "Sandbox")
                            then AuthParams.SANDBOX_URL
                            else AuthParams.PRODUCTION_URL))
             end) h
            = (Returned
                 match url, alias with
                 | Some url', Some alias' =>
                     CONTINUE
                       {| AuthParams.alias :=
                            if String.eqb alias' ""
                            then AuthParams.DEFAULT_ALIAS else alias';
                          AuthParams.loginUrl :=
                            if String.eqb url' ""
                            then AuthParams.PRODUCTION_URL else url' |}
                 | _, _ => CANCEL None
                 end,
               h ++ [AuthParams.ShowQuickPick items;
                     AuthParams.ShowInputBox (AuthParams.customUrl_options ui)]
                 ++ match url with
                    | Some _ =>
                        [AuthParams.ShowInputBox (AuthParams.alias_options ui)]
                    | None => []
                    end)).
  { intros items h. unfold bind at 1, AuthParams.showQuickPick.
    rewrite Hpick. cbv zeta. rewrite bool_decide_eq_true_2 by done.
    unfold bind at 1, AuthParams.showInputBox at 1. rewrite Hurl.
    destruct url as [url'|].
    - unfold AuthParams.gather_alias, bind, AuthParams.showInputBox.
      rewrite Halias. unfold ret. rewrite <- !app_assoc.
      destruct alias as [alias'|]; [|done].
      unfold AuthParams.or_else, nonempty.
      by destruct (String.eqb alias' ""), (String.eqb url' "").
    - unfold ret. rewrite <- !app_assoc. by destruct alias. }
  unfold AuthParams.gather, AuthParams.getQuickPickItems,
    AuthParams.getProjectLoginUrl, AuthParams.getValue, bind at 1, bind at 1.
  rewrite Hconfig.
  destruct (nonempty projectUrl); unfold ret; rewrite Htail;
    eexists; by rewrite <- !app_assoc.
Qed.

Lemma gather_custom_org_follows_the_inputs_witness :
  let custom :=
    {| AuthParams.label := "Custom"; AuthParams.detail := "auth_custom_detail" |} in
  let ui :=
    {| AuthParams.localizeKey :=
         AuthParams.localizeKey (AuthParams.english_ui None None []);
       AuthParams.configValue := fun _ _ => Returned None;
       AuthParams.picked := fun _ _ => Some custom;
       AuthParams.entered := fun _ options =>
         if bool_decide (AuthParams.placeHolder options
                         = Some AuthParams.DEFAULT_ALIAS) then Some "dev"
         else None |} in
  exists items,
    AuthParams.gather ui []
    = (Returned (CANCEL None),
       [] ++ [AuthParams.GetValue "sfdcLoginUrl";
              AuthParams.ShowQuickPick items;
              AuthParams.ShowInputBox (AuthParams.customUrl_options ui)]
          ++ []).
Proof.
  intros custom ui.
  exact (gather_custom_org_follows_the_inputs ui None None (Some "dev") custom
           [] eq_refl (fun _ _ => eq_refl) eq_refl (fun _ => eq_refl)
           (fun _ => eq_refl)).
Defined.
